(** * ReWear server: the swap / points workflow

    A shallow embedding of the route handlers of [routes/swaps.js] and
    [routes/items.js] and of the model methods of [models/Swap.js] and
    [models/Item.js], over an explicit database state.

    Conventions of the embedding.
    - A MongoDB collection is a finite map from [ObjectId] to documents.
    - A handler is a computation in the [Handler] monad: it reads the
      database, performs its awaited writes one after the other (every
      write is recorded, so the states between two writes are visible),
      and stops at the first [res.status(..).json(..)].
    - [req.user] is the document loaded by [authenticateToken]; a request
      whose user is absent is answered 401 by that middleware.
    - The express-validator chains are taken as passed: request bodies are
      typed records holding the sanitised values.
    - The bookkeeping of Mongoose ([__v], the [createdAt]/[updatedAt] stamps
      of the [timestamps] option) is left out; the clock and the random
      transaction suffix are inputs of the handlers. *)

From stdpp Require Import gmap strings list fin_maps pretty sorting.

Local Open Scope Z_scope.

(** ** Documents *)

Abbreviation ObjectId := N.

(** [models/User.js]: the counters the handlers read or update. *)
Record User : Type := mkUser {
  points : Z;
  swapsCount : Z;
  itemsCount : Z
}.

(** [models/Item.js] *)
Record Item : Type := mkItem {
  owner : ObjectId;
  pointsValue : Z;
  isAvailable : bool;
  isApproved : bool;
  isRejected : bool;
  views : Z;
  likes : Z;
  likedBy : list ObjectId
}.

(** [models/Swap.js] *)
Inductive SwapStatus : Type :=
  pending | accepted | rejected | completed | cancelled.

(** ['direct'] and ['points']; the latter is written [bypoints], [points]
    being the balance of a user *)
Inductive SwapType : Type := direct | bypoints.

Record PointsTransaction : Type := mkTxn {
  fromUser : ObjectId;
  toUser : ObjectId;
  amount : Z;
  transactionId : string
}.

Record Rating : Type := mkRating {
  rating : Z;
  comment : option string;
  createdAt : Z
}.

(** The nested paths [rating.requesterRating], [rating.ownerRating] and
    [pointsTransaction] are [None] as long as nothing was assigned to
    them. *)
Record Swap : Type := mkSwap {
  requester : ObjectId;
  requestedItem : ObjectId;
  offeredItems : list ObjectId;
  status : SwapStatus;
  swapType : SwapType;
  pointsOffered : Z;
  message : string;
  responseMessage : string;
  isCompleted : bool;
  completedAt : option Z;
  cancelledBy : option ObjectId;
  cancellationReason : option string;
  requesterRating : option Rating;
  ownerRating : option Rating;
  pointsTransaction : option PointsTransaction
}.

Global Instance SwapStatus_eq_dec : EqDecision SwapStatus.
Proof. solve_decision. Defined.

Global Instance SwapType_eq_dec : EqDecision SwapType.
Proof. solve_decision. Defined.

(** ** The database *)

Record Db : Type := mkDb {
  users : gmap N User;
  items : gmap N Item;
  swaps : gmap N Swap
}.

Definition set_users (f : gmap N User → gmap N User) (db : Db) : Db :=
  mkDb (f (users db)) (items db) (swaps db).

Definition set_items (f : gmap N Item → gmap N Item) (db : Db) : Db :=
  mkDb (users db) (f (items db)) (swaps db).

Definition set_swaps (f : gmap N Swap → gmap N Swap) (db : Db) : Db :=
  mkDb (users db) (items db) (f (swaps db)).

(** ** Replies *)

Record Response : Type := mkResponse {
  code : Z;
  body : string
}.

Global Instance Response_eq_dec : EqDecision Response.
Proof. solve_decision. Defined.

(** ** Handlers

    [Next] carries on with a value; [Sent] is an early
    [return res.status(..).json(..)].  Both carry the current database and
    the log of the states produced by the writes so far, oldest first. *)

Inductive Step (A : Type) : Type :=
  | Next (a : A) (db : Db) (log : list Db)
  | Sent (r : Response) (db : Db) (log : list Db).
Arguments Next {A} a db log.
Arguments Sent {A} r db log.

Definition Handler (A : Type) : Type := Db → list Db → Step A.

Global Instance Handler_ret : MRet Handler :=
  λ A a db log, Next a db log.

Global Instance Handler_bind : MBind Handler :=
  λ A B k h db log,
    match h db log with
    | Next a db' log' => k a db' log'
    | Sent r db' log' => Sent r db' log'
    end.

(** [return res.status(c).json({ message })] *)
Definition reply {A} (c : Z) (m : string) : Handler A :=
  λ db log, Sent (mkResponse c m) db log.

(** a query *)
Definition query {A} (f : Db → A) : Handler A :=
  λ db log, Next (f db) db log.

(** an awaited write: the new state is committed and becomes observable *)
Definition write (f : Db → Db) : Handler unit :=
  λ db log, Next () (f db) (log ++ [f db]).

(** What a client gets, the final database, and every state committed on
    the way. *)
Record Run : Type := mkRun {
  response : Response;
  final : Db;
  trace : list Db
}.

Definition exec (h : Handler Response) (db : Db) : Run :=
  match h db [] with
  | Next r db' log => mkRun r db' log
  | Sent r db' log => mkRun r db' log
  end.

(** ** Mongo update operators *)

(** [{ $inc: { points: dp, swapsCount: ds, itemsCount: di } }] *)
Definition inc (dp ds di : Z) (u : User) : User :=
  mkUser (points u + dp) (swapsCount u + ds) (itemsCount u + di).

(** [User.findByIdAndUpdate(id, { $inc: .. })]: no document, no change;
    update validators are not run, so the schema's [min: 0] is not
    enforced here. *)
Definition User_findByIdAndUpdate_inc (id : ObjectId) (dp ds di : Z) : Handler unit :=
  write (set_users (alter (inc dp ds di) id)).

Definition set_unavailable (it : Item) : Item :=
  mkItem (owner it) (pointsValue it) false (isApproved it) (isRejected it)
         (views it) (likes it) (likedBy it).

(** [Item.findByIdAndUpdate(id, { isAvailable: false })] *)
Definition Item_findByIdAndUpdate_unavailable (id : ObjectId) : Handler unit :=
  write (set_items (alter set_unavailable id)).

(** [Item.findByIdAndDelete(id)] *)
Definition Item_findByIdAndDelete (id : ObjectId) : Handler unit :=
  write (set_items (delete id)).

(** [swap.save()] for the document loaded under [id] *)
Definition Swap_save (id : ObjectId) (s : Swap) : Handler unit :=
  write (set_swaps (insert id s)).

(** ** [middleware/auth.js] *)

(** [authenticateToken], for a token that decodes to [uid]. *)
Definition authenticateToken (uid : ObjectId) : Handler User :=
  u ← query (λ db, users db !! uid);
  match u with
  | None => reply 401 "Invalid token - user not found"
  | Some user => mret user
  end.

(** ** [models/Swap.js]: document methods (the [save] is done by the caller) *)

Definition set_response (st : SwapStatus) (msg : string)
    (txn : option PointsTransaction) (s : Swap) : Swap :=
  mkSwap (requester s) (requestedItem s) (offeredItems s) st (swapType s)
         (pointsOffered s) (message s) msg (isCompleted s) (completedAt s)
         (cancelledBy s) (cancellationReason s) (requesterRating s)
         (ownerRating s) txn.

Definition completeSwap (now : Z) (s : Swap) : Swap :=
  mkSwap (requester s) (requestedItem s) (offeredItems s) completed (swapType s)
         (pointsOffered s) (message s) (responseMessage s) true (Some now)
         (cancelledBy s) (cancellationReason s) (requesterRating s)
         (ownerRating s) (pointsTransaction s).

(** [cancelSwap(userId, reason = '')] *)
Definition cancelSwap (userId : ObjectId) (reason : option string) (s : Swap) : Swap :=
  mkSwap (requester s) (requestedItem s) (offeredItems s) cancelled (swapType s)
         (pointsOffered s) (message s) (responseMessage s) (isCompleted s)
         (completedAt s) (Some userId) (Some (default "" reason))
         (requesterRating s) (ownerRating s) (pointsTransaction s).

Definition addRating (userId : ObjectId) (score : Z) (c : option string)
    (now : Z) (s : Swap) : Swap :=
  if decide (userId = requester s) then
    mkSwap (requester s) (requestedItem s) (offeredItems s) (status s) (swapType s)
           (pointsOffered s) (message s) (responseMessage s) (isCompleted s)
           (completedAt s) (cancelledBy s) (cancellationReason s)
           (Some (mkRating score c now)) (ownerRating s) (pointsTransaction s)
  else
    mkSwap (requester s) (requestedItem s) (offeredItems s) (status s) (swapType s)
           (pointsOffered s) (message s) (responseMessage s) (isCompleted s)
           (completedAt s) (cancelledBy s) (cancellationReason s)
           (requesterRating s) (Some (mkRating score c now)) (pointsTransaction s).

(** ** [models/Item.js]: document methods *)

(** [Array.prototype.indexOf]: position of the first occurrence *)
Definition indexOf (x : ObjectId) (l : list ObjectId) : option nat :=
  fst <$> list_find (λ y, y = x) l.

Definition toggleLike (userId : ObjectId) (it : Item) : Item :=
  match indexOf userId (likedBy it) with
  | Some index =>
      mkItem (owner it) (pointsValue it) (isAvailable it) (isApproved it)
             (isRejected it) (views it) (likes it - 1)
             (delete index (likedBy it))
  | None =>
      mkItem (owner it) (pointsValue it) (isAvailable it) (isApproved it)
             (isRejected it) (views it) (likes it + 1)
             (likedBy it ++ [userId])
  end.

Definition isLikedBy (userId : ObjectId) (it : Item) : bool :=
  bool_decide (userId ∈ likedBy it).

(** ** [routes/swaps.js] *)

Record CreateBody : Type := mkCreateBody {
  body_requestedItem : ObjectId;
  body_offeredItems : option (list ObjectId);
  body_swapType : SwapType;
  body_pointsOffered : option Z;
  body_message : option string
}.

(** The order of the [_id] index. *)
Definition by_id (a b : ObjectId * Item) : Prop := (a.1 ≤ b.1)%N.

Global Instance by_id_dec a b : Decision (by_id a b).
Proof. unfold by_id. apply _. Defined.

(** [Item.find({ _id: { $in: ids } })]: every document whose [_id] is among
    [ids], once each.  The query is answered from the [_id] index, so the
    documents come by ascending [_id], whatever the order of [ids]. *)
Definition Item_find_in (ids : list ObjectId) (db : Db) : list Item :=
  snd <$> merge_sort by_id (filter (λ kv, kv.1 ∈ ids) (map_to_list (items db))).

(** [Swap.findOne({ requester, requestedItem, status: 'pending' })]; the
    route only tests whether there is one *)
Definition is_pending_for (uid rid : ObjectId) (s : Swap) : Prop :=
  requester s = uid ∧ requestedItem s = rid ∧ status s = pending.

Global Instance is_pending_for_dec uid rid s : Decision (is_pending_for uid rid s).
Proof. unfold is_pending_for. apply _. Defined.

Definition Swap_findOne_pending (uid rid : ObjectId) (db : Db) : option Swap :=
  head (filter (is_pending_for uid rid) (snd <$> map_to_list (swaps db))).

(** the [for (const item of offeredItemsDocs)] loop of the direct branch *)
Fixpoint check_offered (uid : ObjectId) (docs : list Item) : Handler unit :=
  match docs with
  | [] => mret ()
  | item :: rest =>
      if decide (owner item ≠ uid) then
        reply 403 "You can only offer your own items"
      else if negb (isAvailable item) || negb (isApproved item) then
        reply 400 "One or more offered items are not available for swap"
      else check_offered uid rest
  end.

(** [new Swap({ .. })] with the schema defaults *)
Definition new_Swap (uid : ObjectId) (b : CreateBody) : Swap :=
  mkSwap uid (body_requestedItem b)
         (match body_swapType b with
          | direct => default [] (body_offeredItems b)
          | bypoints => []
          end)
         pending (body_swapType b)
         (match body_swapType b with
          | bypoints => default 0 (body_pointsOffered b)
          | direct => 0
          end)
         (default "" (body_message b)) "" false None None None None None None.

(** [router.post('/')] *)
Definition create (uid : ObjectId) (b : CreateBody) : Handler Response :=
  user ← authenticateToken uid;
  requestedItemDoc ← query (λ db, items db !! body_requestedItem b);
  match requestedItemDoc with
  | None => reply 404 "Requested item not found"
  | Some requestedItemDoc =>
    if negb (isAvailable requestedItemDoc) || negb (isApproved requestedItemDoc) then
      reply 400 "Item is not available for swap"
    else if decide (owner requestedItemDoc = uid) then
      reply 400 "You cannot swap your own item"
    else
      _ ← match body_swapType b with
          | direct =>
              match body_offeredItems b with
              | None | Some [] =>
                  reply 400 "At least one offered item is required for direct swap"
              | Some offered =>
                  offeredItemsDocs ← query (Item_find_in offered);
                  if decide (length offeredItemsDocs ≠ length offered) then
                    reply 404 "One or more offered items not found"
                  else check_offered uid offeredItemsDocs
              end
          | bypoints =>
              match body_pointsOffered b with
              | None | Some 0 =>
                  reply 400 "Points amount is required for points type"
              | Some p =>
                  if decide (points user < p) then
                    reply 400 ("Insufficient points. You need " +:+ pretty p +:+
                               " points but have " +:+ pretty (points user))
                  else if decide (p ≠ pointsValue requestedItemDoc) then
                    reply 400 ("Points amount must match item value (" +:+
                               pretty (pointsValue requestedItemDoc) +:+ " points)")
                  else mret ()
              end
          end;
      existingSwap ← query (Swap_findOne_pending uid (body_requestedItem b));
      match existingSwap with
      | Some _ => reply 400 "You already have a pending swap request for this item"
      | None =>
          (* the document gets an ObjectId no other swap has *)
          id ← query (λ db, fresh (dom (swaps db)));
          _ ← Swap_save id (new_Swap uid b);
          mret (mkResponse 201 "Swap request created successfully")
      end
  end.

Inductive Action : Type := accept | reject.

Definition Action_string (a : Action) : string :=
  match a with accept => "accept" | reject => "reject" end.

(** the documents [populate('offeredItems')] finds *)
Definition populated (ids : list ObjectId) (db : Db) : list ObjectId :=
  filter (λ id, is_Some (items db !! id)) ids.

(** [for (const offeredItemId of swap.offeredItems)] *)
Fixpoint mark_all_unavailable (ids : list ObjectId) : Handler unit :=
  match ids with
  | [] => mret ()
  | id :: rest =>
      _ ← Item_findByIdAndUpdate_unavailable id;
      mark_all_unavailable rest
  end.

(** [router.put('/:id/respond')]; [txn] is the generated transaction id *)
Definition respond (uid id : ObjectId) (action : Action)
    (responseMessage : option string) (txn : string) : Handler Response :=
  _ ← authenticateToken uid;
  found ← query (λ db, swaps db !! id);
  match found with
  | None => reply 404 "Swap not found"
  | Some swap =>
    requestedItemDoc ← query (λ db, items db !! requestedItem swap);
    offeredItemsDocs ← query (populated (offeredItems swap));
    match requestedItemDoc with
    | None => reply 500 "Error responding to swap"
    | Some item =>
      if decide (owner item ≠ uid) then
        reply 403 "You can only respond to swaps for your own items"
      else if decide (status swap ≠ pending) then
        reply 400 "Swap is no longer pending"
      else
        _ ← match action with
            | accept =>
                match swapType swap with
                | bypoints =>
                    _ ← User_findByIdAndUpdate_inc (requester swap) (- pointsOffered swap) 0 0;
                    _ ← User_findByIdAndUpdate_inc (owner item) (pointsOffered swap) 0 0;
                    _ ← Item_findByIdAndUpdate_unavailable (requestedItem swap);
                    _ ← Swap_save id
                          (set_response accepted (default "" responseMessage)
                             (Some (mkTxn (requester swap) (owner item)
                                          (pointsOffered swap) txn)) swap);
                    _ ← User_findByIdAndUpdate_inc (requester swap) 100 1 0;
                    User_findByIdAndUpdate_inc (owner item) 100 1 0
                | direct =>
                    _ ← Item_findByIdAndUpdate_unavailable (requestedItem swap);
                    _ ← mark_all_unavailable offeredItemsDocs;
                    _ ← Swap_save id
                          (set_response accepted (default "" responseMessage)
                             (pointsTransaction swap) swap);
                    _ ← User_findByIdAndUpdate_inc (requester swap) 0 1 0;
                    _ ← User_findByIdAndUpdate_inc (owner item) 0 1 0;
                    _ ← User_findByIdAndUpdate_inc (requester swap) 100 1 0;
                    User_findByIdAndUpdate_inc (owner item) 100 1 0
                end
            | reject =>
                Swap_save id
                  (set_response rejected (default "" responseMessage)
                     (pointsTransaction swap) swap)
            end;
        mret (mkResponse 200 ("Swap " +:+ Action_string action +:+ "ed successfully"))
    end
  end.

(** [isInvolved]: the second disjunct dereferences the populated item and
    throws when the item is gone (or, in [rate], was never populated) *)
Definition isInvolved (uid : ObjectId) (swap : Swap) (item : option Item)
    (err : string) : Handler bool :=
  if decide (requester swap = uid) then mret true
  else match item with
       | None => reply 500 err
       | Some item => mret (bool_decide (owner item = uid))
       end.

(** [router.put('/:id/complete')] *)
Definition complete (uid id : ObjectId) (now : Z) : Handler Response :=
  _ ← authenticateToken uid;
  found ← query (λ db, swaps db !! id);
  match found with
  | None => reply 404 "Swap not found"
  | Some swap =>
    requestedItemDoc ← query (λ db, items db !! requestedItem swap);
    involved ← isInvolved uid swap requestedItemDoc "Error completing swap";
    if negb involved then reply 403 "Access denied"
    else if decide (status swap ≠ accepted) then
      reply 400 "Swap must be accepted before completion"
    else
      _ ← Swap_save id (completeSwap now swap);
      mret (mkResponse 200 "Swap completed successfully")
  end.

(** [res.json({ message, swap })] at the end of the cancel route.  The swap
    still holds the item loaded by [populate('requestedItem', 'owner')], a
    document with its [owner] and nothing else.  [models/Item.js] serialises
    its virtuals, and [mainImage] reads [this.images.length]: on that
    document [images] is undefined, the getter throws, and the [catch] of
    the route answers 500.  When the item is gone the populated path is
    [null] and the reply goes out. *)
Definition cancel_reply (requestedItemDoc : option Item) : Response :=
  match requestedItemDoc with
  | Some _ => mkResponse 500 "Error cancelling swap"
  | None => mkResponse 200 "Swap cancelled successfully"
  end.

(** [router.put('/:id/cancel')] *)
Definition cancel (uid id : ObjectId) (reason : option string) : Handler Response :=
  _ ← authenticateToken uid;
  found ← query (λ db, swaps db !! id);
  match found with
  | None => reply 404 "Swap not found"
  | Some swap =>
    requestedItemDoc ← query (λ db, items db !! requestedItem swap);
    involved ← isInvolved uid swap requestedItemDoc "Error cancelling swap";
    if negb involved then reply 403 "Access denied"
    else if decide (status swap ≠ pending ∧ status swap ≠ accepted) then
      reply 400 "Swap cannot be cancelled in its current state"
    else
      _ ← Swap_save id (cancelSwap uid reason swap);
      mret (cancel_reply requestedItemDoc)
  end.

(** [router.post('/:id/rate')]: the swap is loaded without [populate], so
    [swap.requestedItem.owner] is undefined *)
Definition rate (uid id : ObjectId) (score : Z) (c : option string)
    (now : Z) : Handler Response :=
  _ ← authenticateToken uid;
  found ← query (λ db, swaps db !! id);
  match found with
  | None => reply 404 "Swap not found"
  | Some swap =>
    involved ← isInvolved uid swap None "Error adding rating";
    if negb involved then reply 403 "Access denied"
    else if decide (status swap ≠ completed) then
      reply 400 "Can only rate completed swaps"
    else
      _ ← Swap_save id (addRating uid score c now swap);
      mret (mkResponse 200 "Rating added successfully")
  end.

(** ** [routes/items.js] *)

(** [router.post('/:id/mark-unavailable')] *)
Definition mark_unavailable (uid id : ObjectId) : Handler Response :=
  _ ← authenticateToken uid;
  found ← query (λ db, items db !! id);
  match found with
  | None => reply 404 "Item not found"
  | Some item =>
    if decide (owner item ≠ uid) then
      reply 403 "Only the item owner can mark this item as unavailable"
    else if negb (isAvailable item) then
      reply 400 "Item is already unavailable"
    else
      _ ← Item_findByIdAndDelete id;
      _ ← User_findByIdAndUpdate_inc uid 0 0 (-1);
      mret (mkResponse 200 "Item marked as unavailable and removed successfully")
  end.

(** [router.post('/:id/like')] *)
Definition like (uid id : ObjectId) : Handler Response :=
  _ ← authenticateToken uid;
  found ← query (λ db, items db !! id);
  match found with
  | None => reply 404 "Item not found"
  | Some item =>
      _ ← write (set_items (insert id (toggleLike uid item)));
      mret (mkResponse 200 "Like toggled successfully")
  end.

(** ** Requests

    The routes that write to the swap collection, and the two item routes
    of the catalog considered here. *)

Inductive Request : Type :=
  | ReqCreate (uid : ObjectId) (b : CreateBody)
  | ReqRespond (uid id : ObjectId) (action : Action)
      (responseMessage : option string) (txn : string)
  | ReqComplete (uid id : ObjectId) (now : Z)
  | ReqCancel (uid id : ObjectId) (reason : option string)
  | ReqRate (uid id : ObjectId) (score : Z) (c : option string) (now : Z)
  | ReqMarkUnavailable (uid id : ObjectId)
  | ReqLike (uid id : ObjectId).

Definition handle (rq : Request) : Handler Response :=
  match rq with
  | ReqCreate uid b => create uid b
  | ReqRespond uid id action m txn => respond uid id action m txn
  | ReqComplete uid id now => complete uid id now
  | ReqCancel uid id reason => cancel uid id reason
  | ReqRate uid id score c now => rate uid id score c now
  | ReqMarkUnavailable uid id => mark_unavailable uid id
  | ReqLike uid id => like uid id
  end.

(** The server handling a sequence of requests, one after the other. *)
Definition serve (rqs : list Request) (db : Db) : Db :=
  foldl (λ d rq, final (exec (handle rq) d)) db rqs.

(** ** Vocabulary of the properties *)

(** The transition graph of the swap state machine. *)
Inductive allowed : SwapStatus → SwapStatus → Prop :=
  | accept_pending : allowed pending accepted
  | reject_pending : allowed pending rejected
  | complete_accepted : allowed accepted completed
  | cancel_pending : allowed pending cancelled
  | cancel_accepted : allowed accepted cancelled.


(** How one write may change the swap collection: not at all, by saving
    an existing swap with the same parties and a status that stays or
    follows the graph, or by adding a pending swap for a pair that has no
    pending swap yet. *)
Inductive swaps_evolve (m m' : gmap N Swap) : Prop :=
  | evolve_same : m' = m → swaps_evolve m m'
  | evolve_save id s s' :
      m !! id = Some s →
      m' = <[id:=s']> m →
      requester s' = requester s →
      requestedItem s' = requestedItem s →
      status s' = status s ∨ allowed (status s) (status s') →
      swaps_evolve m m'
  | evolve_new id s' :
      m !! id = None →
      m' = <[id:=s']> m →
      status s' = pending →
      (∀ id2 s2, m !! id2 = Some s2 →
                 ¬ is_pending_for (requester s') (requestedItem s') s2) →
      swaps_evolve m m'.


(** The states a client can observe while and after a request is handled. *)
Definition observable (run : Run) (d : Db) : Prop :=
  d ∈ trace run ∨ d = final run.

(** Preconditions 1 to 4 of swap creation: everything [create] checks
    before it looks for a pending duplicate. *)
Definition offer_ok (uid : ObjectId) (b : CreateBody) (item : Item) (u : User)
    (db : Db) : Prop :=
  match body_swapType b with
  | direct =>
      ∃ offered, body_offeredItems b = Some offered ∧ offered ≠ [] ∧
        length (Item_find_in offered db) = length offered ∧
        Forall (λ it, owner it = uid ∧ isAvailable it = true ∧ isApproved it = true)
               (Item_find_in offered db)
  | bypoints =>
      ∃ p, body_pointsOffered b = Some p ∧ p ≠ 0 ∧
        p ≤ points u ∧ p = pointsValue item
  end.

Definition valid_request (uid : ObjectId) (b : CreateBody) (db : Db) : Prop :=
  ∃ u item,
    users db !! uid = Some u ∧
    items db !! body_requestedItem b = Some item ∧
    isAvailable item = true ∧ isApproved item = true ∧
    owner item ≠ uid ∧
    offer_ok uid b item u db.

Definition duplicate_request_error : Response :=
  mkResponse 400 "You already have a pending swap request for this item".

Definition points_of (d : Db) (uid : ObjectId) : option Z :=
  points <$> users d !! uid.

Definition swapsCount_of (d : Db) (uid : ObjectId) : option Z :=
  swapsCount <$> users d !! uid.

(** In [d], exactly one of the two balances differs from what it was in
    [before]. *)
Definition one_side_updated (before d : Db) (r o : ObjectId) : Prop :=
  (points_of d r ≠ points_of before r ∧ points_of d o = points_of before o) ∨
  (points_of d r = points_of before r ∧ points_of d o ≠ points_of before o).

(** What the loop over the offered items leaves in the item collection. *)
Definition unavailable_all (ids : list ObjectId) (m : gmap N Item) : gmap N Item :=
  foldl (λ m id, alter set_unavailable id m) m ids.

(** The caller is one of the two parties of the swap, as [isInvolved]
    computes it. *)
Definition involved (uid : ObjectId) (swap : Swap) (db : Db) : Prop :=
  requester swap = uid ∨
  ∃ item, items db !! requestedItem swap = Some item ∧ owner item = uid.

(** The replies of the three state guards of the swap routes. *)
Definition not_pending_error : Response :=
  mkResponse 400 "Swap is no longer pending".

Definition not_accepted_error : Response :=
  mkResponse 400 "Swap must be accepted before completion".

Definition not_cancellable_error : Response :=
  mkResponse 400 "Swap cannot be cancelled in its current state".

Definition invalid_state_error (r : Response) : Prop :=
  r = not_pending_error ∨ r = not_accepted_error ∨ r = not_cancellable_error.

(** The two balances, requester first, in every state of a list. *)
Definition balances (r o : ObjectId) (l : list Db) : list (option Z * option Z) :=
  (λ d, (points_of d r, points_of d o)) <$> l.

(** The database after a successful [create]. *)
Definition created (uid : ObjectId) (b : CreateBody) (db : Db) : Db :=
  set_swaps (insert (fresh (dom (swaps db))) (new_Swap uid b)) db.

(** ** A small marketplace, for the examples *)

Module Sample.

Definition alice : ObjectId := 1%N.
Definition bob : ObjectId := 2%N.
Definition coat : ObjectId := 10%N.
Definition boots : ObjectId := 11%N.
Definition scarf : ObjectId := 12%N.
Definition hat : ObjectId := 13%N.

(** alice's scarf, which bob likes *)
Definition scarf_doc : Item := mkItem alice 50 true true false 3 1 [bob].

(** bob lists a coat and boots worth 500 points each and a hat that
    has been taken; alice lists the scarf *)
Definition market : Db :=
  mkDb (<[alice := mkUser 500 0 1]> (<[bob := mkUser 100 0 3]> ∅))
       (<[coat := mkItem bob 500 true true false 0 0 []]>
          (<[boots := mkItem bob 500 true true false 0 0 []]>
             (<[scarf := scarf_doc]>
                (<[hat := mkItem bob 80 false true false 0 0 []]> ∅))))
       ∅.

Definition for_points (item : ObjectId) (p : Z) : CreateBody :=
  mkCreateBody item None bypoints (Some p) None.

Definition for_items (item : ObjectId) (offered : list ObjectId) : CreateBody :=
  mkCreateBody item (Some offered) direct None None.

(** alice asks for the coat with her 500 points: swap 0 *)
Definition coat_requested : Db :=
  serve [ReqCreate alice (for_points coat 500)] market.

(** ... and for the boots with the same 500 points: swap 1 *)
Definition both_requested : Db :=
  serve [ReqCreate alice (for_points boots 500)] coat_requested.

(** alice offers her scarf for bob's coat: swap 0 *)
Definition scarf_offered : Db :=
  serve [ReqCreate alice (for_items coat [scarf])] market.

(** bob accepts the coat request *)
Definition coat_accepted : Db :=
  serve [ReqRespond bob 0%N accept None "TXN_1"] coat_requested.

(** bob turns the coat request down *)
Definition coat_refused : Db :=
  serve [ReqRespond bob 0%N reject None ""] coat_requested.

(** alice's request for the hat is still pending, but the hat has been
    taken since she made it *)
Definition hat_requested : Db :=
  set_swaps (insert 0%N (new_Swap alice (for_points hat 80))) market.

End Sample.

(** ** More of [routes/items.js]

    The redemption stamps ([redeemedBy], [redeemedAt], [redemptionType])
    and [rejectionReason] are fields of the item document outside [Item];
    of a write that sets them, the part on the fields of [Item] is kept. *)

(** [itemSchema.methods.incrementViews], before its [save] *)
Definition incrementViews (it : Item) : Item :=
  mkItem (owner it) (pointsValue it) (isAvailable it) (isApproved it)
         (isRejected it) (views it + 1) (likes it) (likedBy it).

(** [router.get('/:id')]; the reply carries the item and no message *)
Definition get_item (id : ObjectId) : Handler Response :=
  found ← query (λ db, items db !! id);
  match found with
  | None => reply 404 "Item not found"
  | Some item =>
      _ ← write (set_items (insert id (incrementViews item)));
      mret (mkResponse 200 "")
  end.

(** [router.post('/:id/redeem-owner')] *)
Definition redeem_owner (uid id : ObjectId) : Handler Response :=
  user ← authenticateToken uid;
  found ← query (λ db, items db !! id);
  match found with
  | None => reply 404 "Item not found"
  | Some item =>
    if decide (owner item ≠ uid) then
      reply 403 "Only the item owner can redeem this item"
    else if negb (isAvailable item) then
      reply 400 "Item is not available for redemption"
    else if decide (points user < pointsValue item) then
      reply 400 "Insufficient points balance"
    else
      _ ← User_findByIdAndUpdate_inc uid (- pointsValue item) 0 0;
      _ ← Item_findByIdAndUpdate_unavailable id;
      _ ← User_findByIdAndUpdate_inc uid 0 0 (-1);
      mret (mkResponse 200 "Item redeemed successfully")
  end.

(** ** [routes/admin.js]

    [role] is the role stored in the caller's document, a field outside
    [User]. *)

Inductive Role : Type := user_role | admin_role.

Global Instance Role_eq_dec : EqDecision Role.
Proof. solve_decision. Defined.

(** [requireAdmin], after [authenticateToken] *)
Definition requireAdmin (role : Role) : Handler unit :=
  if decide (role ≠ admin_role) then reply 403 "Admin access required"
  else mret ().

Definition set_moderation (approved rejected : bool) (it : Item) : Item :=
  mkItem (owner it) (pointsValue it) (isAvailable it) approved rejected
         (views it) (likes it) (likedBy it).

(** [router.put('/items/:id/approve')] *)
Definition approve (uid : ObjectId) (role : Role) (id : ObjectId) : Handler Response :=
  _ ← authenticateToken uid;
  _ ← requireAdmin role;
  found ← query (λ db, items db !! id);
  match found with
  | None => reply 404 "Item not found"
  | Some item =>
    if isApproved item then reply 400 "Item is already approved"
    else
      _ ← write (set_items (insert id (set_moderation true false item)));
      mret (mkResponse 200 "Item approved successfully")
  end.

(** [router.put('/items/:id/reject')] *)
Definition reject_item (uid : ObjectId) (role : Role) (id : ObjectId)
    (reason : string) : Handler Response :=
  _ ← authenticateToken uid;
  _ ← requireAdmin role;
  found ← query (λ db, items db !! id);
  match found with
  | None => reply 404 "Item not found"
  | Some item =>
    if isRejected item then reply 400 "Item is already rejected"
    else
      _ ← write (set_items (insert id (set_moderation false true item)));
      mret (mkResponse 200 "Item rejected successfully")
  end.

Definition set_points (p : Z) (u : User) : User :=
  mkUser p (swapsCount u) (itemsCount u).

(** [router.put('/users/:id/points')], with its validator
    [body('points').isInt({ min: 0 })] *)
Definition update_points (uid : ObjectId) (role : Role) (id : ObjectId)
    (p : Z) : Handler Response :=
  _ ← authenticateToken uid;
  _ ← requireAdmin role;
  if decide (p < 0) then reply 400 "Validation failed"
  else
    target ← query (λ db, users db !! id);
    _ ← write (set_users (alter (set_points p) id));
    match target with
    | None => reply 404 "User not found"
    | Some _ => mret (mkResponse 200 "User points updated successfully")
    end.

(** ** The item update of [routes/items.js]

    A request body is a JSON object.  Of its top-level keys, [body_fields]
    holds the ones that name a field of [Item]; [body_set] is the value of
    a ["$set"] key, which reaches [findByIdAndUpdate] as the update
    operator it is.  Bodies with another key that starts with [$] are not
    considered. *)

Record ItemPatch : Type := mkItemPatch {
  patch_owner : option ObjectId;
  patch_pointsValue : option Z;
  patch_isAvailable : option bool;
  patch_isApproved : option bool;
  patch_isRejected : option bool;
  patch_views : option Z;
  patch_likes : option Z;
  patch_likedBy : option (list ObjectId)
}.

Record UpdateBody : Type := mkUpdateBody {
  body_fields : ItemPatch;
  body_set : option ItemPatch
}.

(** [updateData = { ...req.body }; delete updateData.owner]: the copy is
    shallow and the key removed is the top-level one *)
Definition delete_owner (b : UpdateBody) : UpdateBody :=
  mkUpdateBody
    (mkItemPatch None
       (patch_pointsValue (body_fields b)) (patch_isAvailable (body_fields b))
       (patch_isApproved (body_fields b)) (patch_isRejected (body_fields b))
       (patch_views (body_fields b)) (patch_likes (body_fields b))
       (patch_likedBy (body_fields b)))
    (body_set b).

(** a key sent at the top level and in [$set]: the top-level value is kept *)
Definition first_of {A} (top set : option A) : option A :=
  match top with
  | Some v => Some v
  | None => set
  end.

(** The update Mongoose sends: the top-level keys are shorthand for [$set]
    and are written into the [$set] of the body. *)
Definition castUpdate (b : UpdateBody) : ItemPatch :=
  match body_set b with
  | None => body_fields b
  | Some s =>
      mkItemPatch
        (first_of (patch_owner (body_fields b)) (patch_owner s))
        (first_of (patch_pointsValue (body_fields b)) (patch_pointsValue s))
        (first_of (patch_isAvailable (body_fields b)) (patch_isAvailable s))
        (first_of (patch_isApproved (body_fields b)) (patch_isApproved s))
        (first_of (patch_isRejected (body_fields b)) (patch_isRejected s))
        (first_of (patch_views (body_fields b)) (patch_views s))
        (first_of (patch_likes (body_fields b)) (patch_likes s))
        (first_of (patch_likedBy (body_fields b)) (patch_likedBy s))
  end.

(** [{ $set: p }] on one document *)
Definition apply_patch (p : ItemPatch) (it : Item) : Item :=
  mkItem (default (owner it) (patch_owner p))
         (default (pointsValue it) (patch_pointsValue p))
         (default (isAvailable it) (patch_isAvailable p))
         (default (isApproved it) (patch_isApproved p))
         (default (isRejected it) (patch_isRejected p))
         (default (views it) (patch_views p))
         (default (likes it) (patch_likes p))
         (default (likedBy it) (patch_likedBy p)).

(** [requireOwnership(Item)] of [middleware/auth.js] *)
Definition requireOwnership (uid id : ObjectId) : Handler Item :=
  resource ← query (λ db, items db !! id);
  match resource with
  | None => reply 404 "Resource not found"
  | Some resource =>
      if decide (owner resource ≠ uid) then
        reply 403 "Access denied - you do not own this resource"
      else mret resource
  end.

(** [body('pointsValue').optional().isInt({ min: 1, max: 10000 })], and
    [min: 1, max: 10000] of the schema *)
Definition pointsValue_valid (p : ItemPatch) : bool :=
  match patch_pointsValue p with
  | None => true
  | Some v => bool_decide (1 ≤ v ≤ 10000)
  end.

(** [router.put('/:id')].  The validator chain reads the top-level keys of
    the body; [runValidators: true] makes the update check the schema on
    the values it sets, and a value it refuses makes [findByIdAndUpdate]
    throw. *)
Definition update_item (uid id : ObjectId) (b : UpdateBody) : Handler Response :=
  _ ← authenticateToken uid;
  _ ← requireOwnership uid id;
  if negb (pointsValue_valid (body_fields b)) then reply 400 "Validation failed"
  else
    let updateData := castUpdate (delete_owner b) in
    if negb (pointsValue_valid updateData) then reply 500 "Error updating item"
    else
      _ ← write (set_items (alter (apply_patch updateData) id));
      mret (mkResponse 200 "Item updated successfully").

(** [n] requests for the page of one item, one after the other *)
Definition view_times (n : nat) (id : ObjectId) (db : Db) : Db :=
  Nat.iter n (λ d, final (exec (get_item id) d)) db.

(** ** The requests of the invariants

    The swap routes, like, view, mark-unavailable, redeem-owner, the two
    moderation decisions and the admin points update.  [update_item] is
    kept apart: it can set any field. *)

Inductive Operation : Type :=
  | OpSwap (rq : Request)
  | OpGetItem (id : ObjectId)
  | OpRedeemOwner (uid id : ObjectId)
  | OpApprove (uid : ObjectId) (role : Role) (id : ObjectId)
  | OpReject (uid : ObjectId) (role : Role) (id : ObjectId) (reason : string)
  | OpUpdatePoints (uid : ObjectId) (role : Role) (id : ObjectId) (p : Z).

Definition perform (op : Operation) : Handler Response :=
  match op with
  | OpSwap rq => handle rq
  | OpGetItem id => get_item id
  | OpRedeemOwner uid id => redeem_owner uid id
  | OpApprove uid role id => approve uid role id
  | OpReject uid role id reason => reject_item uid role id reason
  | OpUpdatePoints uid role id p => update_points uid role id p
  end.

Definition perform_all (ops : list Operation) (db : Db) : Db :=
  foldl (λ d op, final (exec (perform op) d)) db ops.

(** ** Pagination of the list routes

    [page] and [limit] are the parsed query parameters, both at least 1
    once the validators have passed; [matches] is what the query finds, in
    its sort order. *)

Record Pagination : Type := mkPagination {
  currentPage : nat;
  totalPages : nat;
  totalItems : nat;
  hasNext : bool;
  hasPrev : bool
}.

(** [.skip((page - 1) * limit).limit(limit)] *)
Definition page_of {A} (page limit : nat) (matches : list A) : list A :=
  take limit (drop ((page - 1) * limit) matches).

(** [Math.ceil(total / limit)] *)
Definition ceil_div (total limit : nat) : nat :=
  ((total + limit - 1) / limit)%nat.

Definition pagination {A} (page limit : nat) (matches : list A) : Pagination :=
  let skip := ((page - 1) * limit)%nat in
  let total := length matches in
  mkPagination page (ceil_div total limit) total
    (bool_decide (skip + length (page_of page limit matches) < total)%nat)
    (bool_decide (1 < page)%nat).

(** ** [swapSchema.virtual('duration')]

    Whole days between the two stamps, [null] when one is missing. *)
Definition duration (completed_at created_at : option Z) : option Z :=
  match completed_at, created_at with
  | Some c, Some s => Some ((c - s) / (1000 * 60 * 60 * 24))
  | _, _ => None
  end.

(** ** Vocabulary of the further properties *)

(** The updates of an item document that the modelled requests make. *)
Inductive item_saved (it : Item) : Item → Prop :=
  | saved_same : item_saved it it
  | saved_unavailable : item_saved it (set_unavailable it)
  | saved_like u : item_saved it (toggleLike u it)
  | saved_view : item_saved it (incrementViews it)
  | saved_moderation a r : item_saved it (set_moderation a r it).

(** Every item there after a request was there before, and was updated in
    one of these ways. *)
Definition items_step (m m' : gmap N Item) : Prop :=
  ∀ i it', m' !! i = Some it' → ∃ it, m !! i = Some it ∧ item_saved it it'.

(** What no request changes about an item, and the one direction in which
    its availability moves. *)
Definition item_step (it it' : Item) : Prop :=
  owner it' = owner it ∧
  pointsValue it' = pointsValue it ∧
  (isAvailable it = false → isAvailable it' = false).

(** The updates of a swap document that the modelled requests make. *)
Inductive swap_saved (s : Swap) : Swap → Prop :=
  | saved_response st m txn :
      status s = pending → st = accepted ∨ st = rejected →
      swap_saved s (set_response st m txn s)
  | saved_complete now :
      status s = accepted → swap_saved s (completeSwap now s)
  | saved_cancel uid reason :
      status s = pending ∨ status s = accepted →
      swap_saved s (cancelSwap uid reason s)
  | saved_rating score c now :
      status s = completed →
      swap_saved s (addRating (requester s) score c now s).

(** What a request does to the swap collection: nothing, one update of
    an existing swap, or one new pending swap for somebody else's item. *)
Definition swaps_step (db d : Db) : Prop :=
  swaps d = swaps db ∨
  (∃ id s s', swaps db !! id = Some s ∧ swaps d = <[id:=s']> (swaps db) ∧
              swap_saved s s') ∨
  (∃ id s' item, swaps db !! id = None ∧ swaps d = <[id:=s']> (swaps db) ∧
                 status s' = pending ∧
                 items db !! requestedItem s' = Some item ∧
                 owner item ≠ requester s').

(** The terms of a swap, fixed at its creation, and the owner's rating. *)
Definition same_terms (s s' : Swap) : Prop :=
  requester s' = requester s ∧ requestedItem s' = requestedItem s ∧
  offeredItems s' = offeredItems s ∧ swapType s' = swapType s ∧
  pointsOffered s' = pointsOffered s ∧ message s' = message s ∧
  ownerRating s' = ownerRating s.

(** No swap asks its requester for the requester's own item. *)
Definition parties_distinct (db : Db) : Prop :=
  ∀ id s item,
    swaps db !! id = Some s →
    items db !! requestedItem s = Some item →
    owner item ≠ requester s.

(** The counter agrees with the list of users who liked the item. *)
Definition likes_consistent (it : Item) : Prop :=
  likes it = Z.of_nat (length (likedBy it)) ∧ NoDup (likedBy it).

(** Two swap documents that differ in their ratings at most. *)
Definition same_but_ratings (s s' : Swap) : Prop :=
  s' = mkSwap (requester s) (requestedItem s) (offeredItems s) (status s)
         (swapType s) (pointsOffered s) (message s) (responseMessage s)
         (isCompleted s) (completedAt s) (cancelledBy s) (cancellationReason s)
         (requesterRating s') (ownerRating s') (pointsTransaction s).

Module Sample2.

Definition carol : ObjectId := 3%N.

(** the market of [Sample], with carol, an administrator with 40 points *)
Definition market : Db :=
  set_users (insert carol (mkUser 40 0 0)) Sample.market.

(** alice's request for the coat has been accepted and completed *)
Definition coat_completed : Db :=
  serve [ReqComplete Sample.alice 0%N 1700000000] Sample.coat_accepted.

End Sample2.

(** ** Evaluating handlers *)

Ltac unfold_handler :=
  unfold exec, handle, create, respond, complete, cancel, rate,
    mark_unavailable, like, isInvolved, authenticateToken,
    User_findByIdAndUpdate_inc, Item_findByIdAndUpdate_unavailable,
    Item_findByIdAndDelete, Swap_save,
    mbind, Handler_bind, mret, Handler_ret, query, reply, write.

(** ** Runs of the loops *)



Lemma mark_all_unavailable_run ids db log :
  ∃ l, mark_all_unavailable ids db log
       = Next () (set_items (unavailable_all ids) db) (log ++ l) ∧
       Forall (λ d, users d = users db ∧ swaps d = swaps db) l.
Proof.
  revert db log. induction ids as [|id ids IH]; intros db log.
  - exists []. split; [|constructor].
    cbn. rewrite app_nil_r. by destruct db.
  - cbn. unfold_handler.
    destruct (IH (set_items (alter set_unavailable id) db)
                 (log ++ [set_items (alter set_unavailable id) db]))
      as (l & -> & Hl).
    exists (set_items (alter set_unavailable id) db :: l). split.
    + f_equal. by rewrite <- app_assoc.
    + constructor; [done|]. exact Hl.
Qed.

Lemma check_offered_run uid docs db log :
  (check_offered uid docs db log = Next () db log ∧
   Forall (λ it, owner it = uid ∧ isAvailable it = true ∧ isApproved it = true) docs) ∨
  ∃ r, check_offered uid docs db log = Sent r db log ∧ code r ≠ 201.
Proof.
  induction docs as [|item docs IH]; cbn; [left; by split|].
  destruct (decide (owner item ≠ uid)) as [|Ho];
    [right; eexists; split; [done|done]|].
  destruct (isAvailable item) eqn:Ha, (isApproved item) eqn:Hp; cbn;
    try (right; eexists; split; [done|done]).
  destruct IH as [[-> Hall]|IH]; [left|by right].
  split; [done|]. constructor; [|done].
  repeat split; try done. by destruct (decide (owner item = uid)).
Qed.

Lemma check_offered_passes uid docs db log :
  Forall (λ it, owner it = uid ∧ isAvailable it = true ∧ isApproved it = true) docs →
  check_offered uid docs db log = Next () db log.
Proof.
  induction 1 as [|item docs (Ho & Ha & Hp) _ IH]; cbn; [done|].
  destruct (decide (owner item ≠ uid)); [done|].
  by rewrite Ha, Hp.
Qed.




(** ** Runs of [respond] *)

Section Respond.
Context (db : Db) (uid id : ObjectId) (msg : option string) (txn : string).
Context (u : User) (swap : Swap) (item : Item).
Hypothesis Huser : users db !! uid = Some u.
Hypothesis Hswap : swaps db !! id = Some swap.
Hypothesis Hitem : items db !! requestedItem swap = Some item.
Hypothesis Howner : owner item = uid.
Hypothesis Hpending : status swap = pending.

Lemma respond_accept_points_run :
  swapType swap = bypoints →
  let p := pointsOffered swap in
  let d1 := set_users (alter (inc (- p) 0 0) (requester swap)) db in
  let d2 := set_users (alter (inc p 0 0) (owner item)) d1 in
  let d3 := set_items (alter set_unavailable (requestedItem swap)) d2 in
  let d4 := set_swaps (insert id (set_response accepted (default "" msg)
              (Some (mkTxn (requester swap) (owner item) p txn)) swap)) d3 in
  let d5 := set_users (alter (inc 100 1 0) (requester swap)) d4 in
  let d6 := set_users (alter (inc 100 1 0) (owner item)) d5 in
  exec (respond uid id accept msg txn) db =
    mkRun (mkResponse 200 "Swap accepted successfully") d6 [d1; d2; d3; d4; d5; d6].
Proof.
  intros Hty. unfold_handler. rewrite Huser, Hswap, Hitem.
  destruct (decide (owner item ≠ uid)); [done|].
  destruct (decide (status swap ≠ pending)); [done|].
  by rewrite Hty.
Qed.

Lemma respond_accept_direct_run :
  swapType swap = direct →
  let d1 := set_items (alter set_unavailable (requestedItem swap)) db in
  let d2 := set_items (unavailable_all (populated (offeredItems swap) db)) d1 in
  let d3 := set_swaps (insert id (set_response accepted (default "" msg)
              (pointsTransaction swap) swap)) d2 in
  let d4 := set_users (alter (inc 0 1 0) (requester swap)) d3 in
  let d5 := set_users (alter (inc 0 1 0) (owner item)) d4 in
  let d6 := set_users (alter (inc 100 1 0) (requester swap)) d5 in
  let d7 := set_users (alter (inc 100 1 0) (owner item)) d6 in
  ∃ l, exec (respond uid id accept msg txn) db =
         mkRun (mkResponse 200 "Swap accepted successfully") d7
               (d1 :: l ++ [d3; d4; d5; d6; d7]) ∧
       Forall (λ d, users d = users db ∧ swaps d = swaps db) l.
Proof.
  intros Hty. unfold_handler. rewrite Huser, Hswap, Hitem.
  destruct (decide (owner item ≠ uid)); [done|].
  destruct (decide (status swap ≠ pending)); [done|].
  rewrite Hty.
  destruct (mark_all_unavailable_run (populated (offeredItems swap) db)
              (set_items (alter set_unavailable (requestedItem swap)) db)
              ([] ++ [set_items (alter set_unavailable (requestedItem swap)) db]))
    as (l & -> & Hl).
  exists l. split; [|exact Hl].
  cbn. f_equal. by rewrite <- !app_assoc.
Qed.

Lemma respond_reject_run :
  let d := set_swaps (insert id (set_response rejected (default "" msg)
             (pointsTransaction swap) swap)) db in
  exec (respond uid id reject msg txn) db =
    mkRun (mkResponse 200 "Swap rejected successfully") d [d].
Proof.
  unfold_handler. rewrite Huser, Hswap, Hitem.
  destruct (decide (owner item ≠ uid)); [done|].
  by destruct (decide (status swap ≠ pending)).
Qed.
End Respond.

(** A [respond] either changes nothing and does not answer 200, or all its
    guards passed. *)
Lemma respond_inv db uid id action msg txn :
  (∃ r, exec (respond uid id action msg txn) db = mkRun r db [] ∧ code r ≠ 200) ∨
  (∃ u swap item,
      users db !! uid = Some u ∧ swaps db !! id = Some swap ∧
      items db !! requestedItem swap = Some item ∧ owner item = uid ∧
      status swap = pending).
Proof.
  unfold_handler.
  destruct (users db !! uid) as [u|] eqn:Hu; [|left; eexists; by split].
  destruct (swaps db !! id) as [swap|] eqn:Hs; [|left; eexists; by split].
  destruct (items db !! requestedItem swap) as [item|] eqn:Hi;
    [|left; eexists; by split].
  destruct (decide (owner item ≠ uid)); [left; eexists; by split|].
  destruct (decide (status swap ≠ pending)); [left; eexists; by split|].
  right. exists u, swap, item. repeat split; try done.
  - by destruct (decide (owner item = uid)).
  - by destruct (decide (status swap = pending)).
Qed.

(** ** Runs of [create] *)

Lemma fresh_swap_id db : swaps db !! fresh (dom (swaps db)) = None.
Proof. apply not_elem_of_dom, is_fresh. Qed.

Lemma create_inv uid b db :
  (∃ r, exec (create uid b) db = mkRun r db [] ∧ code r ≠ 201) ∨
  (valid_request uid b db ∧
   Swap_findOne_pending uid (body_requestedItem b) db = None ∧
   exec (create uid b) db =
     mkRun (mkResponse 201 "Swap request created successfully")
           (created uid b db) [created uid b db]).
Proof.
  unfold valid_request, offer_ok, created. unfold_handler.
  destruct (users db !! uid) as [u|] eqn:Hu; [|left; eexists; by split].
  destruct (items db !! body_requestedItem b) as [item|] eqn:Hi;
    [|left; eexists; by split].
  destruct (isAvailable item) eqn:Ha, (isApproved item) eqn:Hp; cbn;
    try (left; eexists; by split).
  destruct (decide (owner item = uid)) as [|Ho]; [left; eexists; by split|].
  destruct (body_swapType b) eqn:Hty.
  - destruct (body_offeredItems b) as [[|o offered]|] eqn:Hoff;
      try (left; eexists; by split).
    destruct (decide (length (Item_find_in (o :: offered) db) ≠ length (o :: offered)))
      as [|Hlen]; [left; eexists; by split|].
    destruct (check_offered_run uid (Item_find_in (o :: offered) db) db [])
      as [[-> Hall]|(r & -> & Hr)]; [|left; eexists; by split].
    destruct (Swap_findOne_pending uid (body_requestedItem b) db) eqn:Hf;
      [left; eexists; by split|].
    right. split; [|by split].
    exists u, item. repeat split; try done.
    exists (o :: offered). repeat split; try done.
    by destruct (decide (length (Item_find_in (o :: offered) db) = length (o :: offered))).
  - destruct (body_pointsOffered b) as [[|p|p]|] eqn:Hp';
      try (left; eexists; by split).
    + destruct (decide (points u < Z.pos p)); [left; eexists; by split|].
      destruct (decide (Z.pos p ≠ pointsValue item)) as [|Hv];
        [left; eexists; by split|].
      destruct (Swap_findOne_pending uid (body_requestedItem b) db) eqn:Hf;
        [left; eexists; by split|].
      right. split; [|by split].
      exists u, item. repeat split; try done.
      exists (Z.pos p). repeat split; try done; [lia|].
      by destruct (decide (Z.pos p = pointsValue item)).
    + destruct (decide (points u < Z.neg p)); [left; eexists; by split|].
      destruct (decide (Z.neg p ≠ pointsValue item)) as [|Hv];
        [left; eexists; by split|].
      destruct (Swap_findOne_pending uid (body_requestedItem b) db) eqn:Hf;
        [left; eexists; by split|].
      right. split; [|by split].
      exists u, item. repeat split; try done.
      exists (Z.neg p). repeat split; try done; [lia|].
      by destruct (decide (Z.neg p = pointsValue item)).
Qed.

(** A swap is only ever created for somebody else's item. *)
Lemma create_parties_distinct uid b db :
  code (response (exec (create uid b) db)) = 201 →
  ∃ item, items db !! body_requestedItem b = Some item ∧ owner item ≠ uid.
Proof.
  destruct (create_inv uid b db) as [(r & -> & Hr)|[Hvalid _]]; [done|].
  destruct Hvalid as (u & item & _ & Hi & _ & _ & Ho & _). eauto.
Qed.

(** A request that passes preconditions 1 to 4 reaches the duplicate check. *)
Lemma create_valid uid b db :
  valid_request uid b db →
  exec (create uid b) db =
    match Swap_findOne_pending uid (body_requestedItem b) db with
    | Some _ => mkRun duplicate_request_error db []
    | None => mkRun (mkResponse 201 "Swap request created successfully")
                    (created uid b db) [created uid b db]
    end.
Proof.
  intros (u & item & Hu & Hi & Ha & Hp & Ho & Hoffer).
  unfold offer_ok in Hoffer. unfold created. unfold_handler.
  rewrite Hu, Hi, Ha, Hp. cbn.
  destruct (decide (owner item = uid)); [done|].
  destruct (body_swapType b).
  - destruct Hoffer as (offered & -> & Hne & Hlen & Hall).
    destruct offered as [|o offered]; [done|].
    destruct (decide (length (Item_find_in (o :: offered) db) ≠ length (o :: offered)));
      [done|].
    rewrite (check_offered_passes _ _ _ _ Hall).
    by destruct (Swap_findOne_pending uid (body_requestedItem b) db).
  - destruct Hoffer as (p & -> & Hne & Hle & Hv).
    destruct p as [|p|p]; [done| |];
      (destruct (decide (points u < _)); [lia|]);
      (destruct (decide (_ ≠ pointsValue item)); [done|]);
      by destruct (Swap_findOne_pending uid (body_requestedItem b) db).
Qed.

(** ** Runs of [complete], [cancel] and [rate] *)

Lemma isInvolved_run uid swap db log err :
  involved uid swap db →
  isInvolved uid swap (items db !! requestedItem swap) err db log = Next true db log.
Proof.
  intros [Hr|(item & Hi & Ho)]; unfold_handler.
  - by destruct (decide (requester swap = uid)).
  - destruct (decide (requester swap = uid)); [done|].
    rewrite Hi. by rewrite bool_decide_eq_true_2.
Qed.

Lemma isInvolved_inv uid swap db log err :
  (∃ r, isInvolved uid swap (items db !! requestedItem swap) err db log = Sent r db log
        ∧ code r = 500) ∨
  isInvolved uid swap (items db !! requestedItem swap) err db log = Next false db log ∨
  (involved uid swap db ∧
   isInvolved uid swap (items db !! requestedItem swap) err db log = Next true db log).
Proof.
  unfold involved. unfold_handler.
  destruct (decide (requester swap = uid)); [right; right; split; [by left|done]|].
  destruct (items db !! requestedItem swap) as [item|]; [|left; eexists; by split].
  destruct (decide (owner item = uid)).
  - right; right. rewrite bool_decide_eq_true_2 by done. split; [|done].
    right. by exists item.
  - right; left. by rewrite bool_decide_eq_false_2.
Qed.

Section Party.
Context (db : Db) (uid id : ObjectId) (u : User) (swap : Swap).
Hypothesis Huser : users db !! uid = Some u.
Hypothesis Hswap : swaps db !! id = Some swap.
Hypothesis Hparty : involved uid swap db.

Lemma complete_run now :
  status swap = accepted →
  let d := set_swaps (insert id (completeSwap now swap)) db in
  exec (complete uid id now) db =
    mkRun (mkResponse 200 "Swap completed successfully") d [d].
Proof.
  intros Hst. unfold exec, complete, authenticateToken, mbind, Handler_bind, query.
  rewrite Huser. cbn. rewrite Hswap, isInvolved_run by done. cbn.
  by destruct (decide (status swap ≠ accepted)).
Qed.


Lemma cancel_run reason :
  status swap = pending ∨ status swap = accepted →
  let d := set_swaps (insert id (cancelSwap uid reason swap)) db in
  exec (cancel uid id reason) db =
    mkRun (cancel_reply (items db !! requestedItem swap)) d [d].
Proof.
  intros Hst. unfold exec, cancel, authenticateToken, mbind, Handler_bind, query.
  rewrite Huser. cbn. rewrite Hswap, isInvolved_run by done. cbn.
  destruct (decide (status swap ≠ pending ∧ status swap ≠ accepted))
    as [[Hn1 Hn2]|]; [|done].
  by destruct Hst.
Qed.

End Party.

Lemma complete_inv uid id now db :
  (∃ r, exec (complete uid id now) db = mkRun r db [] ∧ code r ≠ 200) ∨
  (∃ u swap, users db !! uid = Some u ∧ swaps db !! id = Some swap ∧
             involved uid swap db ∧ status swap = accepted).
Proof.
  unfold exec, complete, authenticateToken, mbind, Handler_bind, query, reply.
  destruct (users db !! uid) as [u|] eqn:Hu; [|left; eexists; by split].
  cbn. destruct (swaps db !! id) as [swap|] eqn:Hs; [|left; eexists; by split].
  destruct (isInvolved_inv uid swap db [] "Error completing swap")
    as [(r & -> & Hr)|[->|[Hinv ->]]]; cbn.
  - left; eexists; split; [done|]. by rewrite Hr.
  - left; eexists; by split.
  - destruct (decide (status swap ≠ accepted)); [left; eexists; by split|].
    right. exists u, swap. repeat split; try done.
    by destruct (decide (status swap = accepted)).
Qed.

Lemma cancel_inv uid id reason db :
  (∃ r, exec (cancel uid id reason) db = mkRun r db [] ∧ code r ≠ 200) ∨
  (∃ u swap, users db !! uid = Some u ∧ swaps db !! id = Some swap ∧
             involved uid swap db ∧
             (status swap = pending ∨ status swap = accepted)).
Proof.
  unfold exec, cancel, authenticateToken, mbind, Handler_bind, query, reply.
  destruct (users db !! uid) as [u|] eqn:Hu; [|left; eexists; by split].
  cbn. destruct (swaps db !! id) as [swap|] eqn:Hs; [|left; eexists; by split].
  destruct (isInvolved_inv uid swap db [] "Error cancelling swap")
    as [(r & -> & Hr)|[->|[Hinv ->]]]; cbn.
  - left; eexists; split; [done|]. by rewrite Hr.
  - left; eexists; by split.
  - destruct (decide (status swap ≠ pending ∧ status swap ≠ accepted)) as [|Hn];
      [left; eexists; by split|].
    right. exists u, swap. repeat split; try done.
    destruct (decide (status swap = pending)); [by left|].
    destruct (decide (status swap = accepted)); [by right|].
    destruct Hn. by split.
Qed.


(** ** Runs of the item handlers *)

Lemma mark_unavailable_run db uid id u item :
  users db !! uid = Some u →
  items db !! id = Some item →
  owner item = uid →
  isAvailable item = true →
  let d1 := set_items (delete id) db in
  let d2 := set_users (alter (inc 0 0 (-1)) uid) d1 in
  exec (mark_unavailable uid id) db =
    mkRun (mkResponse 200 "Item marked as unavailable and removed successfully")
          d2 [d1; d2].
Proof.
  intros Hu Hi Ho Ha. unfold_handler. rewrite Hu, Hi, Ha.
  by destruct (decide (owner item ≠ uid)).
Qed.


Lemma like_run db uid id u item :
  users db !! uid = Some u →
  items db !! id = Some item →
  let d := set_items (insert id (toggleLike uid item)) db in
  exec (like uid id) db = mkRun (mkResponse 200 "Like toggled successfully") d [d].
Proof. intros Hu Hi. unfold_handler. by rewrite Hu, Hi. Qed.


(** ** Every write moves the swap collection along the graph *)


Lemma observable_no_write r db d :
  observable (mkRun r db []) d → d = db.
Proof. intros [Hin| ->]; [by apply elem_of_nil in Hin|done]. Qed.

Lemma observable_one_write r db' d :
  observable (mkRun r db' [db']) d → d = db'.
Proof.
  intros [Hin| ->]; [|done].
  apply elem_of_cons in Hin as [->|Hin]; [done|by apply elem_of_nil in Hin].
Qed.









Lemma evolve_new_pending m m' id s' :
  swaps_evolve m m' → m !! id = None → m' !! id = Some s' → status s' = pending.
Proof.
  intros [->|id0 s0 s0' Hs0 -> _ _ _|id0 s0' Hnone -> Hp _] Hn Hs'.
  - congruence.
  - rewrite lookup_insert_ne in Hs' by congruence. congruence.
  - destruct (decide (id0 = id)) as [->|Hne].
    + rewrite lookup_insert_eq in Hs'. congruence.
    + rewrite lookup_insert_ne in Hs' by done. congruence.
Qed.



(** ** Lookups after [$inc] *)

Lemma points_of_alter d uid id dp ds di :
  points_of (set_users (alter (inc dp ds di) id) d) uid =
  if decide (id = uid) then (λ p, p + dp) <$> points_of d uid else points_of d uid.
Proof.
  unfold points_of. cbn. rewrite lookup_alter. case_decide; [subst|done].
  by destruct (users d !! uid).
Qed.

Lemma swapsCount_of_alter d uid id dp ds di :
  swapsCount_of (set_users (alter (inc dp ds di) id) d) uid =
  if decide (id = uid) then (λ n, n + ds) <$> swapsCount_of d uid
  else swapsCount_of d uid.
Proof.
  unfold swapsCount_of. cbn. rewrite lookup_alter. case_decide; [subst|done].
  by destruct (users d !! uid).
Qed.

Lemma points_of_set_items d uid f : points_of (set_items f d) uid = points_of d uid.
Proof. done. Qed.

Lemma points_of_set_swaps d uid f : points_of (set_swaps f d) uid = points_of d uid.
Proof. done. Qed.

Ltac simpl_points :=
  repeat first
    [ rewrite points_of_alter | rewrite points_of_set_items
    | rewrite points_of_set_swaps | case_decide; try congruence ].

(** ** Accepting a points swap *)

(** C1, as stated, fails: while bob accepts alice's 500-point request for
    his coat, the first committed state already has alice debited and bob
    not yet credited. *)
Lemma accept_points_one_side_visible :
  (∃ swap, swaps Sample.coat_requested !! 0%N = Some swap ∧
           status swap = pending ∧ swapType swap = bypoints ∧
           requester swap = Sample.alice) ∧
  code (response (exec (respond Sample.bob 0%N accept None "TXN_1")
                       Sample.coat_requested)) = 200 ∧
  ∃ d, d ∈ trace (exec (respond Sample.bob 0%N accept None "TXN_1")
                       Sample.coat_requested) ∧
       one_side_updated Sample.coat_requested d Sample.alice Sample.bob.
Proof.
  split; [eexists; by repeat split|]. split; [done|].
  exists (set_users (alter (inc (-500) 0 0) Sample.alice) Sample.coat_requested).
  split.
  - apply list_elem_of_lookup. by exists 0%nat.
  - left. split; [|done]. vm_compute. discriminate.
Qed.

(** C1, amended: when the owner of the requested item accepts a pending
    points swap whose requester is another user, the requester ends with
    [before - pointsOffered + 100] and the owner with
    [before + pointsOffered + 100]; the debit, the credit and the two
    bonuses are four separate writes, and the balances in the six states
    the handler commits are the ones listed. *)
Theorem accept_points_balances db uid id msg txn swap item r o :
  swaps db !! id = Some swap →
  status swap = pending →
  swapType swap = bypoints →
  items db !! requestedItem swap = Some item →
  owner item = uid →
  requester swap ≠ uid →
  users db !! requester swap = Some r →
  users db !! uid = Some o →
  let run := exec (respond uid id accept msg txn) db in
  let p := pointsOffered swap in
  response run = mkResponse 200 "Swap accepted successfully" ∧
  points_of (final run) (requester swap) = Some (points r - p + 100) ∧
  points_of (final run) uid = Some (points o + p + 100) ∧
  balances (requester swap) uid (trace run) =
    [ (Some (points r - p), Some (points o));
      (Some (points r - p), Some (points o + p));
      (Some (points r - p), Some (points o + p));
      (Some (points r - p), Some (points o + p));
      (Some (points r - p + 100), Some (points o + p));
      (Some (points r - p + 100), Some (points o + p + 100)) ].
Proof.
  intros Hs Hp Hty Hi Ho Hne Hr Huo run p. subst run p.
  rewrite (respond_accept_points_run db uid id msg txn o swap item Huo Hs Hi Ho Hp Hty).
  assert (points_of db (requester swap) = Some (points r)) as Er
    by (unfold points_of; by rewrite Hr).
  assert (points_of db uid = Some (points o)) as Eo
    by (unfold points_of; by rewrite Huo).
  rewrite Ho. unfold balances. cbn [response final trace fmap list_fmap].
  repeat split; repeat f_equal; simpl_points; rewrite ?Er, ?Eo; cbn; f_equal; lia.
Qed.

Lemma accept_points_balances_witness :
  points_of (final (exec (respond Sample.bob 0%N accept None "TXN_1")
                         Sample.coat_requested)) Sample.alice = Some 100 ∧
  points_of (final (exec (respond Sample.bob 0%N accept None "TXN_1")
                         Sample.coat_requested)) Sample.bob = Some 700.
Proof.
  pose proof (accept_points_balances Sample.coat_requested Sample.bob 0%N None "TXN_1"
                (new_Swap Sample.alice (Sample.for_points Sample.coat 500))
                (mkItem Sample.bob 500 true true false 0 0 [])
                (mkUser 500 0 1) (mkUser 100 0 3)
                eq_refl eq_refl eq_refl eq_refl eq_refl) as H.
  destruct H as (_ & Ha & Hb & _); [by vm_compute|reflexivity|reflexivity|].
  split; [exact Ha|exact Hb].
Defined.

(** ** Accepting a direct swap *)

Lemma set_unavailable_idemp it : set_unavailable (set_unavailable it) = set_unavailable it.
Proof. done. Qed.

Lemma unavailable_all_lookup ids (m : gmap N Item) i :
  unavailable_all ids m !! i =
  if decide (i ∈ ids) then set_unavailable <$> m !! i else m !! i.
Proof.
  revert m. induction ids as [|id ids IH]; intros m; cbn.
  - case_decide as Hin; [by apply elem_of_nil in Hin|done].
  - fold (unavailable_all ids (alter set_unavailable id m)).
    rewrite IH, lookup_alter.
    destruct (decide (i ∈ ids)) as [Hin|Hin], (decide (id = i)) as [->|Hne].
    + rewrite decide_True by (by left).
      destruct (m !! i); cbn; [by rewrite set_unavailable_idemp|done].
    + by rewrite decide_True by (by right).
    + by rewrite decide_True by (by left).
    + rewrite decide_False; [done|].
      intros [E|E]%elem_of_cons; [by subst|done].
Qed.

Lemma elem_of_populated ids db i :
  i ∈ populated ids db ↔ is_Some (items db !! i) ∧ i ∈ ids.
Proof. unfold populated. by rewrite list_elem_of_filter. Qed.

Lemma swapsCount_of_set_items d uid f :
  swapsCount_of (set_items f d) uid = swapsCount_of d uid.
Proof. done. Qed.

Lemma swapsCount_of_set_swaps d uid f :
  swapsCount_of (set_swaps f d) uid = swapsCount_of d uid.
Proof. done. Qed.

Ltac simpl_counts :=
  repeat first
    [ rewrite swapsCount_of_alter | rewrite swapsCount_of_set_items
    | rewrite swapsCount_of_set_swaps | case_decide; try congruence ].

(** What the direct branch of an accept does, for two distinct parties:
    the items leave the pool, the swap is accepted, each party gets the
    100-point bonus - and each [swapsCount] goes up by two, because the
    "Update user stats" block is followed by a second pair of updates that
    increments the counter again together with the bonus. *)
Lemma accept_direct_effects db uid id msg txn swap item r o :
  swaps db !! id = Some swap →
  status swap = pending →
  swapType swap = direct →
  items db !! requestedItem swap = Some item →
  owner item = uid →
  requester swap ≠ uid →
  users db !! requester swap = Some r →
  users db !! uid = Some o →
  let run := exec (respond uid id accept msg txn) db in
  response run = mkResponse 200 "Swap accepted successfully" ∧
  (status <$> swaps (final run) !! id) = Some accepted ∧
  (isAvailable <$> items (final run) !! requestedItem swap) = Some false ∧
  (∀ i, i ∈ offeredItems swap → is_Some (items db !! i) →
        (isAvailable <$> items (final run) !! i) = Some false) ∧
  points_of (final run) (requester swap) = Some (points r + 100) ∧
  points_of (final run) uid = Some (points o + 100) ∧
  swapsCount_of (final run) (requester swap) = Some (swapsCount r + 2) ∧
  swapsCount_of (final run) uid = Some (swapsCount o + 2).
Proof.
  intros Hs Hp Hty Hi Ho Hne Hr Huo run. subst run.
  destruct (respond_accept_direct_run db uid id msg txn o swap item Huo Hs Hi Ho Hp Hty)
    as (l & -> & _).
  assert (points_of db (requester swap) = Some (points r)) as Er
    by (unfold points_of; by rewrite Hr).
  assert (points_of db uid = Some (points o)) as Eo
    by (unfold points_of; by rewrite Huo).
  assert (swapsCount_of db (requester swap) = Some (swapsCount r)) as Cr
    by (unfold swapsCount_of; by rewrite Hr).
  assert (swapsCount_of db uid = Some (swapsCount o)) as Co
    by (unfold swapsCount_of; by rewrite Huo).
  rewrite Ho. cbn [response final].
  split; [done|].
  split; [cbn [swaps items users set_users set_swaps set_items];
          rewrite lookup_insert_eq; reflexivity|].
  split; [|split].
  - cbn [swaps items users set_users set_swaps set_items].
    rewrite unavailable_all_lookup, lookup_alter_eq, Hi.
    case_decide; reflexivity.
  - intros i Hin [it Hit]. cbn [swaps items users set_users set_swaps set_items].
    rewrite unavailable_all_lookup, decide_True
      by (apply elem_of_populated; split; [by exists it|done]).
    rewrite lookup_alter. case_decide; [subst i|]; rewrite Hit; reflexivity.
  - repeat split.
    + simpl_points. rewrite Er. cbn. f_equal. lia.
    + simpl_points. rewrite Eo. cbn. f_equal. lia.
    + simpl_counts. rewrite Cr. cbn. f_equal. lia.
    + simpl_counts. rewrite Co. cbn. f_equal. lia.
Qed.

(** C2, evaluated: alice offers her scarf for bob's coat and bob accepts.
    Coat and scarf leave the pool, the swap is accepted and both get 100
    points, but both [swapsCount]s go from 0 to 2. *)
Theorem accept_direct_counts_twice :
  response (exec (respond Sample.bob 0%N accept None "") Sample.scarf_offered)
    = mkResponse 200 "Swap accepted successfully" ∧
  (swapType <$> swaps Sample.scarf_offered !! 0%N) = Some direct ∧
  (status <$> swaps Sample.scarf_offered !! 0%N) = Some pending ∧
  swapsCount_of Sample.scarf_offered Sample.alice = Some 0 ∧
  swapsCount_of Sample.scarf_offered Sample.bob = Some 0 ∧
  swapsCount_of (final (exec (respond Sample.bob 0%N accept None "")
                             Sample.scarf_offered)) Sample.alice = Some 2 ∧
  swapsCount_of (final (exec (respond Sample.bob 0%N accept None "")
                             Sample.scarf_offered)) Sample.bob = Some 2.
Proof. by vm_compute. Qed.

(** ** The balance can go below zero *)

(** C3, evaluated: alice has 500 points and asks for the coat and for the
    boots, 500 points each; both requests pass the balance check of
    [create], which reserves nothing.  Bob accepts both: the second
    acceptance debits 500 from the 100 points alice has left, and she ends
    with -300. *)
Theorem accept_points_overdraws :
  points_of Sample.market Sample.alice = Some 500 ∧
  (status <$> swaps Sample.both_requested !! 0%N) = Some pending ∧
  (status <$> swaps Sample.both_requested !! 1%N) = Some pending ∧
  points_of (serve [ReqRespond Sample.bob 0%N accept None "TXN_1"]
                   Sample.both_requested) Sample.alice = Some 100 ∧
  points_of (serve [ReqRespond Sample.bob 0%N accept None "TXN_1";
                    ReqRespond Sample.bob 1%N accept None "TXN_2"]
                   Sample.both_requested) Sample.alice = Some (-300).
Proof. by vm_compute. Qed.

(** ** The state machine *)


(** The guards that come before the state guard answer whatever the
    status of the swap is: 401 for a caller without a user document, 500
    when the requested item is gone and the route has to read its owner,
    403 for a caller who is not the owner (respond) or not a party of the
    swap (complete, cancel).  None of them writes. *)
Lemma earlier_guards db uid id swap :
  swaps db !! id = Some swap →
  (users db !! uid = None →
   (∀ action msg txn,
      exec (respond uid id action msg txn) db =
        mkRun (mkResponse 401 "Invalid token - user not found") db []) ∧
   (∀ now, exec (complete uid id now) db =
        mkRun (mkResponse 401 "Invalid token - user not found") db []) ∧
   (∀ reason, exec (cancel uid id reason) db =
        mkRun (mkResponse 401 "Invalid token - user not found") db [])) ∧
  (is_Some (users db !! uid) → items db !! requestedItem swap = None →
   (∀ action msg txn,
      exec (respond uid id action msg txn) db =
        mkRun (mkResponse 500 "Error responding to swap") db []) ∧
   (requester swap ≠ uid →
    (∀ now, exec (complete uid id now) db =
         mkRun (mkResponse 500 "Error completing swap") db []) ∧
    (∀ reason, exec (cancel uid id reason) db =
         mkRun (mkResponse 500 "Error cancelling swap") db []))) ∧
  (is_Some (users db !! uid) →
   ∀ item, items db !! requestedItem swap = Some item → owner item ≠ uid →
   (∀ action msg txn,
      exec (respond uid id action msg txn) db =
        mkRun (mkResponse 403 "You can only respond to swaps for your own items")
              db []) ∧
   (requester swap ≠ uid →
    (∀ now, exec (complete uid id now) db =
         mkRun (mkResponse 403 "Access denied") db []) ∧
    (∀ reason, exec (cancel uid id reason) db =
         mkRun (mkResponse 403 "Access denied") db []))).
Proof.
  intros Hs. split; [|split].
  - intros Hu. repeat split; intros; unfold_handler; by rewrite Hu.
  - intros [u Hu] Hi. split.
    + intros. unfold_handler. by rewrite Hu, Hs, Hi.
    + intros Hr. split; intros; unfold_handler; rewrite Hu, Hs, Hi;
        by destruct (decide (requester swap = uid)).
  - intros [u Hu] item Hi Ho. split.
    + intros. unfold_handler. rewrite Hu, Hs, Hi.
      by destruct (decide (owner item ≠ uid)).
    + intros Hr. split; intros; unfold_handler; rewrite Hu, Hs, Hi;
        (destruct (decide (requester swap = uid)); [done|]);
        by rewrite bool_decide_eq_false_2.
Qed.



(** ** One pending swap per pair *)





(** ** Marking an item unavailable *)

(** C6, as stated, fails: bob marks his available coat unavailable; the
    request succeeds and afterwards there is no coat document at all, so
    no item with [isAvailable = false] continues to exist. *)
Lemma mark_unavailable_deletes :
  items Sample.market !! Sample.coat
    = Some (mkItem Sample.bob 500 true true false 0 0 []) ∧
  code (response (exec (mark_unavailable Sample.bob Sample.coat) Sample.market)) = 200 ∧
  items (final (exec (mark_unavailable Sample.bob Sample.coat) Sample.market))
    !! Sample.coat = None ∧
  ¬ ∃ it, items (final (exec (mark_unavailable Sample.bob Sample.coat) Sample.market))
            !! Sample.coat = Some it ∧ isAvailable it = false.
Proof.
  split; [done|]. split; [done|]. split; [done|].
  intros (it & H & _). vm_compute in H. discriminate H.
Qed.

(** C6, amended: when an owner marks their own available item
    unavailable, the item document is deleted from the collection (every
    other item is left as it was), and then the owner's [itemsCount] is
    decremented by one; points, [swapsCount], the other users and the swaps
    are unchanged. *)
Theorem mark_unavailable_removes db uid id u item :
  users db !! uid = Some u →
  items db !! id = Some item →
  owner item = uid →
  isAvailable item = true →
  let run := exec (mark_unavailable uid id) db in
  response run
    = mkResponse 200 "Item marked as unavailable and removed successfully" ∧
  items (final run) !! id = None ∧
  (∀ i, i ≠ id → items (final run) !! i = items db !! i) ∧
  users (final run) !! uid
    = Some (mkUser (points u) (swapsCount u) (itemsCount u - 1)) ∧
  (∀ v, v ≠ uid → users (final run) !! v = users db !! v) ∧
  swaps (final run) = swaps db ∧
  trace run = [set_items (delete id) db; final run].
Proof.
  intros Hu Hi Ho Ha run. subst run.
  rewrite (mark_unavailable_run db uid id u item Hu Hi Ho Ha).
  cbn [response final trace users items swaps set_users set_items].
  repeat split.
  - apply lookup_delete_eq.
  - intros i Hne. by apply lookup_delete_ne.
  - rewrite lookup_alter_eq, Hu. cbn. unfold inc. do 2 f_equal; lia.
  - intros v Hne. by apply lookup_alter_ne.
Qed.

Lemma mark_unavailable_removes_witness :
  items (final (exec (mark_unavailable Sample.bob Sample.coat) Sample.market))
    !! Sample.coat = None ∧
  users (final (exec (mark_unavailable Sample.bob Sample.coat) Sample.market))
    !! Sample.bob = Some (mkUser 100 0 2).
Proof.
  destruct (mark_unavailable_removes Sample.market Sample.bob Sample.coat
              (mkUser 100 0 3) (mkItem Sample.bob 500 true true false 0 0 [])
              eq_refl eq_refl eq_refl eq_refl) as (_ & Hgone & _ & Hcount & _).
  split; [exact Hgone|exact Hcount].
Defined.

(** ** Accepting a request for an item that is no longer available *)

(** C7: a pending swap whose requested item has [isAvailable = false] is
    still accepted when the item's owner responds with accept: the reply
    is 200 and the swap becomes accepted; for a points swap the requester
    is debited and the owner credited (with the bonus on both sides), for a
    direct swap every offered item that exists is marked unavailable. *)
Theorem accept_ignores_availability db uid id msg txn u swap item :
  users db !! uid = Some u →
  swaps db !! id = Some swap →
  status swap = pending →
  items db !! requestedItem swap = Some item →
  isAvailable item = false →
  owner item = uid →
  let run := exec (respond uid id accept msg txn) db in
  let p := pointsOffered swap in
  response run = mkResponse 200 "Swap accepted successfully" ∧
  (status <$> swaps (final run) !! id) = Some accepted ∧
  match swapType swap with
  | bypoints =>
      requester swap ≠ uid →
      points_of (final run) (requester swap)
        = (λ b, b - p + 100) <$> points_of db (requester swap) ∧
      points_of (final run) uid = Some (points u + p + 100)
  | direct =>
      ∀ i, i ∈ offeredItems swap → is_Some (items db !! i) →
           (isAvailable <$> items (final run) !! i) = Some false
  end.
Proof.
  intros Hu Hs Hp Hi _ Ho run p. subst run p.
  destruct (swapType swap) eqn:Hty.
  - destruct (respond_accept_direct_run db uid id msg txn u swap item Hu Hs Hi Ho Hp Hty)
      as (l & -> & _).
    cbn [response final swaps items users set_users set_swaps set_items].
    split; [done|]. split; [rewrite lookup_insert_eq; reflexivity|].
    intros i Hin [it Hit].
    rewrite unavailable_all_lookup, decide_True
      by (apply elem_of_populated; split; [by exists it|done]).
    rewrite lookup_alter. case_decide; [subst i|]; rewrite Hit; reflexivity.
  - rewrite (respond_accept_points_run db uid id msg txn u swap item Hu Hs Hi Ho Hp Hty).
    cbn [response final].
    split; [done|].
    split; [cbn [swaps items users set_users set_swaps set_items];
            rewrite lookup_insert_eq; reflexivity|].
    intros Hne. rewrite Ho.
    assert (points_of db uid = Some (points u)) as Eo
      by (unfold points_of; by rewrite Hu).
    split; simpl_points.
    + destruct (points_of db (requester swap)); cbn; [f_equal; lia|reflexivity].
    + rewrite Eo. cbn. f_equal; lia.
Qed.

Lemma accept_ignores_availability_witness :
  (isAvailable <$> items Sample.hat_requested !! Sample.hat) = Some false ∧
  response (exec (respond Sample.bob 0%N accept None "TXN_3") Sample.hat_requested)
    = mkResponse 200 "Swap accepted successfully" ∧
  points_of (final (exec (respond Sample.bob 0%N accept None "TXN_3")
                         Sample.hat_requested)) Sample.alice = Some 520.
Proof.
  destruct (accept_ignores_availability Sample.hat_requested Sample.bob 0%N None
              "TXN_3" (mkUser 100 0 3)
              (new_Swap Sample.alice (Sample.for_points Sample.hat 80))
              (mkItem Sample.bob 80 false true false 0 0 [])
              eq_refl eq_refl eq_refl eq_refl eq_refl eq_refl) as (Hok & _ & Hpts).
  split; [reflexivity|]. split; [exact Hok|].
  destruct Hpts as [Ha _]; [discriminate|]. exact Ha.
Defined.

(** ** Cancelling *)

(** C8: a cancel of a pending or accepted swap by one of its parties
    writes once, and only to that swap: its status becomes cancelled,
    [cancelledBy] the caller and [cancellationReason] the reason given (the
    empty string by default), every other field keeps its value; all
    users (so all balances), all items (so all availability flags) and all
    other swaps are exactly as before - nothing the acceptance did is
    reversed.  The swap is cancelled whatever the route answers next: 500
    "Error cancelling swap" when the requested item still exists, since
    the swap it sends back cannot be serialised, and 200 when the item is
    gone. *)
Theorem cancel_frame db uid id reason u swap :
  users db !! uid = Some u →
  swaps db !! id = Some swap →
  involved uid swap db →
  status swap = pending ∨ status swap = accepted →
  let run := exec (cancel uid id reason) db in
  (is_Some (items db !! requestedItem swap) →
   response run = mkResponse 500 "Error cancelling swap") ∧
  (items db !! requestedItem swap = None →
   response run = mkResponse 200 "Swap cancelled successfully") ∧
  trace run = [final run] ∧
  users (final run) = users db ∧
  items (final run) = items db ∧
  (∀ j, j ≠ id → swaps (final run) !! j = swaps db !! j) ∧
  swaps (final run) !! id =
    Some (mkSwap (requester swap) (requestedItem swap) (offeredItems swap)
            cancelled (swapType swap) (pointsOffered swap) (message swap)
            (responseMessage swap) (isCompleted swap) (completedAt swap)
            (Some uid) (Some (default "" reason))
            (requesterRating swap) (ownerRating swap) (pointsTransaction swap)).
Proof.
  intros Hu Hs Hinv Hst run. subst run.
  rewrite (cancel_run db uid id u swap Hu Hs Hinv reason Hst).
  cbn [response final trace users items swaps set_swaps].
  repeat split.
  - intros [it ->]. done.
  - intros ->. done.
  - intros j Hne. by apply lookup_insert_ne.
  - by rewrite lookup_insert_eq.
Qed.

Lemma cancel_frame_witness :
  users (final (exec (cancel Sample.alice 0%N (Some "changed my mind"))
                     Sample.coat_accepted)) = users Sample.coat_accepted ∧
  points_of Sample.coat_accepted Sample.alice = Some 100 ∧
  (isAvailable <$> items (final (exec (cancel Sample.alice 0%N (Some "changed my mind"))
                                      Sample.coat_accepted)) !! Sample.coat)
    = Some false ∧
  (status <$> swaps (final (exec (cancel Sample.alice 0%N (Some "changed my mind"))
                                 Sample.coat_accepted)) !! 0%N)
    = Some cancelled ∧
  response (exec (cancel Sample.alice 0%N (Some "changed my mind"))
                 Sample.coat_accepted)
    = mkResponse 500 "Error cancelling swap".
Proof.
  destruct (cancel_frame Sample.coat_accepted Sample.alice 0%N
              (Some "changed my mind") (mkUser 100 1 1)
              (set_response accepted ""
                 (Some (mkTxn Sample.alice Sample.bob 500 "TXN_1"))
                 (new_Swap Sample.alice (Sample.for_points Sample.coat 500)))
              eq_refl eq_refl) as (Hreply & _ & _ & Husers & Hitems & _ & Hswap).
  - by left.
  - by right.
  - split; [exact Husers|]. split; [reflexivity|].
    split; [by rewrite Hitems|]. split; [by rewrite Hswap|].
    apply Hreply. by eexists.
Defined.

(** ** Creating a request *)

(** C9: [create] never touches a user or an item, in any state it
    commits; when it answers 201 its only write adds, under a fresh id,
    the new swap, which is pending. *)
Theorem create_frame db uid b :
  let run := exec (create uid b) db in
  (∀ d, observable run d → users d = users db ∧ items d = items db) ∧
  (code (response run) = 201 →
   trace run = [final run] ∧
   ∃ id, swaps db !! id = None ∧
         swaps (final run) = <[id:=new_Swap uid b]> (swaps db) ∧
         status (new_Swap uid b) = pending ∧
         requester (new_Swap uid b) = uid ∧
         requestedItem (new_Swap uid b) = body_requestedItem b).
Proof.
  intros run. subst run.
  destruct (create_inv uid b db) as [(r & -> & Hr)|(_ & _ & ->)].
  - split; [by intros d ->%observable_no_write|done].
  - split; [by intros d ->%observable_one_write|].
    intros _. split; [done|].
    exists (fresh (dom (swaps db))). split; [apply fresh_swap_id|done].
Qed.

Lemma create_frame_witness :
  users Sample.coat_requested = users Sample.market ∧
  items Sample.coat_requested = items Sample.market ∧
  (status <$> swaps Sample.coat_requested !! 0%N) = Some pending.
Proof.
  destruct (create_frame Sample.market Sample.alice
              (Sample.for_points Sample.coat 500)) as (Hframe & Hnew).
  destruct (Hframe Sample.coat_requested) as [Hu Hi]; [by right|].
  destruct (Hnew eq_refl) as (_ & id & _ & _ & Hp & _).
  split; [exact Hu|]. split; [exact Hi|reflexivity].
Defined.

(** ** Likes *)

Lemma indexOf_None x l : indexOf x l = None ↔ x ∉ l.
Proof.
  unfold indexOf. rewrite fmap_None, list_find_None, Forall_forall. split.
  - intros H Hin. by apply (H x).
  - intros H y Hin ->. done.
Qed.

Lemma indexOf_Some x l i :
  indexOf x l = Some i → l !! i = Some x.
Proof.
  unfold indexOf. intros ([j y] & Hf & E)%fmap_Some. cbn in E. subst j.
  apply list_find_Some in Hf as (Hl & -> & _). done.
Qed.

Lemma indexOf_snoc x l : x ∉ l → indexOf x (l ++ [x]) = Some (length l).
Proof.
  intros Hnot. unfold indexOf.
  assert (list_find (λ y, y = x) (l ++ [x]) = Some (length l, x)) as ->; [|done].
  apply list_find_Some. split; [by apply list_lookup_middle|]. split; [done|].
  intros j y Hj Hlt ->. apply Hnot.
  rewrite lookup_app_l in Hj by done. by eapply list_elem_of_lookup_2.
Qed.

Lemma elem_of_delete_at (l : list ObjectId) i x v :
  NoDup l → l !! i = Some x →
  v ∈ delete i l ↔ v ∈ l ∧ v ≠ x.
Proof.
  intros Hnd Hi.
  rewrite delete_take_drop.
  rewrite <- (take_drop_middle l i x Hi) in Hnd at 1.
  rewrite <- (take_drop_middle l i x Hi) at 3.
  apply NoDup_app in Hnd as (_ & Hdisj & [Hx _]%NoDup_cons).
  rewrite !elem_of_app, elem_of_cons. split.
  - intros [Hin|Hin]; split; auto.
    + intros ->. apply (Hdisj x Hin). by left.
    + by intros ->.
  - intros [[Hin|[->|Hin]] Hne]; auto. done.
Qed.

Lemma toggleLike_NoDup u it :
  NoDup (likedBy it) → NoDup (likedBy (toggleLike u it)).
Proof.
  intros Hnd. unfold toggleLike.
  destruct (indexOf u (likedBy it)) as [i|] eqn:Hidx; cbn.
  - eapply sublist_NoDup; [done|apply sublist_delete].
  - apply indexOf_None in Hidx. apply NoDup_app. split; [done|]. split.
    + intros x Hin ->%list_elem_of_singleton. done.
    + apply NoDup_singleton.
Qed.

(** C10, as stated, fails: bob likes alice's scarf; after he toggles his
    like twice the counter is back at 1 but he is in [likedBy] again, so
    [isLiked] is true, not false. *)
Lemma toggleLike_twice_still_liked :
  isLikedBy Sample.bob Sample.scarf_doc = true ∧
  likes (toggleLike Sample.bob (toggleLike Sample.bob Sample.scarf_doc)) = 1 ∧
  isLikedBy Sample.bob (toggleLike Sample.bob (toggleLike Sample.bob Sample.scarf_doc))
    = true.
Proof. by vm_compute. Qed.

(** C10, amended: on an item whose [likedBy] holds no user twice, a
    single toggleLike either removes the user and decrements [likes] or
    adds the user and increments [likes]; two in succession restore
    [likes] and restore the user's membership of [likedBy] to what it was
    (so [isLiked] is false afterwards exactly when the user had not liked
    the item), leave every other user's membership alone and keep
    [likedBy] duplicate-free.  The like route answers 200 each time. *)
Theorem toggleLike_twice db uid id u it :
  users db !! uid = Some u →
  items db !! id = Some it →
  NoDup (likedBy it) →
  let once := toggleLike uid it in
  let twice := toggleLike uid once in
  let run1 := exec (like uid id) db in
  let run2 := exec (like uid id) (final run1) in
  (isLikedBy uid it = true ∧ isLikedBy uid once = false ∧ likes once = likes it - 1 ∨
   isLikedBy uid it = false ∧ isLikedBy uid once = true ∧ likes once = likes it + 1) ∧
  likes twice = likes it ∧
  isLikedBy uid twice = isLikedBy uid it ∧
  (∀ v, v ∈ likedBy twice ↔ v ∈ likedBy it) ∧
  NoDup (likedBy twice) ∧
  code (response run1) = 200 ∧ items (final run1) !! id = Some once ∧
  code (response run2) = 200 ∧ items (final run2) !! id = Some twice.
Proof.
  intros Hu Hi Hnd once twice run1 run2.
  assert (∀ v, v ∈ likedBy twice ↔ v ∈ likedBy it) as Hmem.
  { intros v. subst twice once. unfold toggleLike at 2.
    destruct (indexOf uid (likedBy it)) as [i|] eqn:Hidx.
    - pose proof (indexOf_Some _ _ _ Hidx) as Hl.
      unfold toggleLike. cbn [likedBy].
      assert (indexOf uid (delete i (likedBy it)) = None) as ->.
      { apply indexOf_None. rewrite (elem_of_delete_at _ i uid) by done. tauto. }
      cbn [likedBy]. rewrite elem_of_app, list_elem_of_singleton,
        (elem_of_delete_at _ i uid) by done.
      split; [intros [[? _]| ->]; [done|by eapply list_elem_of_lookup_2]|].
      intros Hin. destruct (decide (v = uid)); auto.
    - apply indexOf_None in Hidx. unfold toggleLike. cbn [likedBy].
      rewrite indexOf_snoc by done. cbn [likedBy].
      by rewrite delete_middle, app_nil_r. }
  assert (likes twice = likes it) as Hlikes.
  { subst twice once. unfold toggleLike at 2.
    destruct (indexOf uid (likedBy it)) as [i|] eqn:Hidx.
    - pose proof (indexOf_Some _ _ _ Hidx) as Hl.
      unfold toggleLike. cbn [likedBy likes].
      assert (indexOf uid (delete i (likedBy it)) = None) as ->.
      { apply indexOf_None. rewrite (elem_of_delete_at _ i uid) by done. tauto. }
      cbn. lia.
    - apply indexOf_None in Hidx. unfold toggleLike. cbn [likedBy likes].
      rewrite indexOf_snoc by done. cbn. lia. }
  split; [|split; [done|split; [|split; [done|split]]]].
  - subst once. unfold toggleLike, isLikedBy.
    destruct (indexOf uid (likedBy it)) as [i|] eqn:Hidx; cbn [likedBy likes].
    + pose proof (indexOf_Some _ _ _ Hidx) as Hl. left.
      rewrite bool_decide_eq_true_2 by (by eapply list_elem_of_lookup_2).
      rewrite bool_decide_eq_false_2; [done|].
      rewrite (elem_of_delete_at _ i uid) by done. tauto.
    + apply indexOf_None in Hidx. right.
      rewrite bool_decide_eq_false_2 by done.
      rewrite bool_decide_eq_true_2; [done|].
      apply elem_of_app. right. by left.
  - unfold isLikedBy. apply bool_decide_ext, Hmem.
  - subst twice once. by do 2 apply toggleLike_NoDup.
  - subst run1 run2.
    rewrite (like_run db uid id u it Hu Hi). cbn [response final code].
    split; [done|].
    assert (items (set_items (insert id (toggleLike uid it)) db) !! id
            = Some (toggleLike uid it)) as Hi1
      by (cbn; apply lookup_insert_eq).
    split; [exact Hi1|].
    rewrite (like_run (set_items (insert id (toggleLike uid it)) db) uid id u _ Hu Hi1).
    cbn [response final code].
    split; [done|]. cbn. apply lookup_insert_eq.
Qed.

Lemma toggleLike_twice_witness :
  likes (toggleLike Sample.alice (toggleLike Sample.alice Sample.scarf_doc)) = 1 ∧
  isLikedBy Sample.alice
    (toggleLike Sample.alice (toggleLike Sample.alice Sample.scarf_doc)) = false.
Proof.
  destruct (toggleLike_twice Sample.market Sample.alice Sample.scarf
              (mkUser 500 0 1) Sample.scarf_doc eq_refl eq_refl)
    as (_ & Hlikes & Hliked & _).
  - apply NoDup_singleton.
  - split; [exact Hlikes|exact Hliked].
Defined.

(** ** Pagination *)

Lemma ceil_div_gt (total limit page : nat) :
  (1 ≤ limit)%nat →
  (page < ceil_div total limit)%nat ↔ (page * limit < total)%nat.
Proof.
  intros Hl. unfold ceil_div. split.
  - intros Hlt.
    destruct (Nat.lt_ge_cases (page * limit) total) as [|Hge]; [done|].
    assert ((total + limit - 1) / limit < S page)%nat; [|lia].
    apply Nat.Div0.div_lt_upper_bound. lia.
  - intros Hlt.
    assert (S page ≤ (total + limit - 1) / limit)%nat; [|lia].
    apply Nat.div_le_lower_bound; lia.
Qed.

Lemma length_page_of {A} (page limit : nat) (l : list A) :
  length (page_of page limit l) = (limit `min` (length l - (page - 1) * limit))%nat.
Proof. unfold page_of. by rewrite length_take, length_drop. Qed.

Lemma pages_concat {A} (limit n : nat) (l : list A) :
  concat ((λ p, page_of p limit l) <$> seq 1 n) = take (n * limit) l.
Proof.
  induction n as [|n IH]; [done|].
  rewrite seq_S, fmap_app, concat_app, IH. cbn [fmap list_fmap concat].
  rewrite app_nil_r. unfold page_of.
  replace (1 + n - 1)%nat with n by lia.
  rewrite take_take_drop. f_equal. lia.
Qed.

(** X1: on a list route called with page ≥ 1 and limit ≥ 1, [hasNext] is
    true exactly when the current page is before the last one, and
    [hasPrev] exactly when it is after the first. *)
Theorem pagination_hasNext {A} (page limit : nat) (matches : list A) :
  (1 ≤ page)%nat →
  (1 ≤ limit)%nat →
  hasNext (pagination page limit matches)
    = bool_decide (page < totalPages (pagination page limit matches))%nat ∧
  hasPrev (pagination page limit matches) = bool_decide (1 < page)%nat.
Proof.
  intros Hp Hl. split; [|done]. cbn [hasNext totalPages pagination].
  apply bool_decide_ext. rewrite ceil_div_gt by done.
  rewrite length_page_of. nia.
Qed.

Lemma pagination_hasNext_witness :
  hasNext (pagination 2 2 [10%N; 11%N; 12%N; 13%N; 14%N]) = true ∧
  hasNext (pagination 3 2 [10%N; 11%N; 12%N; 13%N; 14%N]) = false.
Proof.
  destruct (pagination_hasNext 2 2 [10%N; 11%N; 12%N; 13%N; 14%N]) as [H2 _];
    [lia|lia|].
  destruct (pagination_hasNext 3 2 [10%N; 11%N; 12%N; 13%N; 14%N]) as [H3 _];
    [lia|lia|].
  split; [exact H2|exact H3].
Defined.

(** X2: with limit ≥ 1 the pages 1 to [totalPages] hold every match
    exactly once and in order: put end to end they are the list of
    matches.  No page holds more than [limit] items, the pages up to
    [totalPages] are not empty and every page after is. *)
Theorem pages_partition {A} (limit : nat) (matches : list A) :
  (1 ≤ limit)%nat →
  let last := totalPages (pagination 1 limit matches) in
  concat ((λ p, page_of p limit matches) <$> seq 1 last) = matches ∧
  (∀ p, length (page_of p limit matches) ≤ limit)%nat ∧
  (∀ p, (1 ≤ p ≤ last)%nat → page_of p limit matches ≠ []) ∧
  (∀ p, (last < p)%nat → page_of p limit matches = []).
Proof.
  intros Hl last. subst last. cbn [totalPages pagination].
  split; [|split; [|split]].
  - rewrite pages_concat. apply take_ge.
    destruct (Nat.le_gt_cases (length matches)
                (ceil_div (length matches) limit * limit)) as [|Hgt]; [done|].
    apply ceil_div_gt in Hgt; [lia|done].
  - intros p. rewrite length_page_of. lia.
  - intros p [Hp1 Hp2] Hnil.
    assert (p - 1 < ceil_div (length matches) limit)%nat as Hlt by lia.
    apply ceil_div_gt in Hlt; [|done].
    apply (f_equal length) in Hnil. rewrite length_page_of in Hnil.
    cbn in Hnil. lia.
  - intros p Hp.
    assert (¬ (p - 1 < ceil_div (length matches) limit)%nat) as Hge by lia.
    rewrite ceil_div_gt in Hge by done.
    unfold page_of. rewrite drop_ge by lia. apply take_nil.
Qed.

Lemma pages_partition_witness :
  page_of 1 2 [10%N; 11%N; 12%N; 13%N; 14%N]
    ++ page_of 2 2 [10%N; 11%N; 12%N; 13%N; 14%N]
    ++ page_of 3 2 [10%N; 11%N; 12%N; 13%N; 14%N]
  = [10%N; 11%N; 12%N; 13%N; 14%N].
Proof.
  destruct (pages_partition 2 [10%N; 11%N; 12%N; 13%N; 14%N]) as [H _]; [lia|].
  exact H.
Defined.

(** ** Redeeming one's own item *)

Ltac unfold_more :=
  unfold exec, perform, get_item, redeem_owner, approve, reject_item,
    update_points, requireAdmin, authenticateToken,
    User_findByIdAndUpdate_inc, Item_findByIdAndUpdate_unavailable,
    mbind, Handler_bind, mret, Handler_ret, query, reply, write.

Lemma redeem_owner_run db uid id u item :
  users db !! uid = Some u →
  items db !! id = Some item →
  owner item = uid →
  isAvailable item = true →
  pointsValue item ≤ points u →
  let d1 := set_users (alter (inc (- pointsValue item) 0 0) uid) db in
  let d2 := set_items (alter set_unavailable id) d1 in
  let d3 := set_users (alter (inc 0 0 (-1)) uid) d2 in
  exec (redeem_owner uid id) db =
    mkRun (mkResponse 200 "Item redeemed successfully") d3 [d1; d2; d3].
Proof.
  intros Hu Hi Ho Ha Hp. unfold_more. rewrite Hu, Hi, Ha.
  destruct (decide (owner item ≠ uid)); [done|]. cbn.
  destruct (decide (points u < pointsValue item)); [lia|done].
Qed.

Lemma redeem_owner_inv db uid id :
  (∃ r, exec (redeem_owner uid id) db = mkRun r db [] ∧ code r ≠ 200) ∨
  (∃ u item, users db !! uid = Some u ∧ items db !! id = Some item ∧
             owner item = uid ∧ isAvailable item = true ∧
             pointsValue item ≤ points u).
Proof.
  unfold_more.
  destruct (users db !! uid) as [u|] eqn:Hu; [|left; eexists; by split].
  destruct (items db !! id) as [item|] eqn:Hi; [|left; eexists; by split].
  destruct (decide (owner item ≠ uid)); [left; eexists; by split|].
  destruct (isAvailable item) eqn:Ha; cbn; [|left; eexists; by split].
  destruct (decide (points u < pointsValue item)); [left; eexists; by split|].
  right. exists u, item. repeat split; try done; [|lia].
  by destruct (decide (owner item = uid)).
Qed.

(** X3: redeem-owner checks the balance it debits.  A successful
    redemption takes exactly the item's [pointsValue] from the owner and
    leaves a balance that is not negative; it marks the item unavailable
    (the document stays), lowers [itemsCount] by one and touches no other
    user, item or swap. *)
Theorem redeem_owner_effect db uid id u item :
  users db !! uid = Some u →
  items db !! id = Some item →
  code (response (exec (redeem_owner uid id) db)) = 200 →
  let run := exec (redeem_owner uid id) db in
  0 ≤ points u - pointsValue item ∧
  users (final run) !! uid
    = Some (mkUser (points u - pointsValue item) (swapsCount u) (itemsCount u - 1)) ∧
  items (final run) !! id = Some (set_unavailable item) ∧
  (∀ v, v ≠ uid → users (final run) !! v = users db !! v) ∧
  (∀ i, i ≠ id → items (final run) !! i = items db !! i) ∧
  swaps (final run) = swaps db.
Proof.
  intros Hu Hi Hok run. subst run.
  destruct (redeem_owner_inv db uid id)
    as [(r & Hrun & Hr)|(u' & item' & Hu' & Hi' & Ho & Ha & Hp)].
  { rewrite Hrun in Hok. done. }
  assert (u' = u) as -> by congruence. assert (item' = item) as -> by congruence.
  rewrite (redeem_owner_run db uid id u item Hu Hi Ho Ha Hp).
  cbn [final users items swaps set_users set_items].
  split; [lia|]. repeat split.
  - rewrite lookup_alter_eq, lookup_alter_eq, Hu. cbn. unfold inc. cbn.
    do 2 f_equal; lia.
  - rewrite lookup_alter_eq, Hi. done.
  - intros v Hne. by rewrite !lookup_alter_ne.
  - intros i Hne. by rewrite lookup_alter_ne.
Qed.

Lemma redeem_owner_effect_witness :
  users (final (exec (redeem_owner Sample.alice Sample.scarf) Sample.market))
    !! Sample.alice = Some (mkUser 450 0 0) ∧
  (isAvailable <$> items (final (exec (redeem_owner Sample.alice Sample.scarf)
                                      Sample.market)) !! Sample.scarf) = Some false.
Proof.
  destruct (redeem_owner_effect Sample.market Sample.alice Sample.scarf
              (mkUser 500 0 1) Sample.scarf_doc eq_refl eq_refl eq_refl)
    as (_ & Hu & Hi & _).
  split; [exact Hu|]. by rewrite Hi.
Defined.

(** X4: a redemption the owner cannot pay for, or of an item that is
    already unavailable, is refused with 400 and writes nothing. *)
Theorem redeem_owner_refused db uid id u item :
  users db !! uid = Some u →
  items db !! id = Some item →
  owner item = uid →
  isAvailable item = false ∨ points u < pointsValue item →
  exec (redeem_owner uid id) db =
    mkRun (mkResponse 400 (if isAvailable item
                           then "Insufficient points balance"
                           else "Item is not available for redemption")) db [].
Proof.
  intros Hu Hi Ho Hbad. unfold_more. rewrite Hu, Hi.
  destruct (decide (owner item ≠ uid)); [done|].
  destruct (isAvailable item); cbn; [|done].
  destruct Hbad as [|Hlt]; [done|].
  by destruct (decide (points u < pointsValue item)).
Qed.

Lemma redeem_owner_refused_witness :
  response (exec (redeem_owner Sample.bob Sample.coat) Sample.market)
    = mkResponse 400 "Insufficient points balance" ∧
  response (exec (redeem_owner Sample.bob Sample.hat) Sample.market)
    = mkResponse 400 "Item is not available for redemption".
Proof.
  pose proof (redeem_owner_refused Sample.market Sample.bob Sample.coat
              (mkUser 100 0 3) (mkItem Sample.bob 500 true true false 0 0 [])
              eq_refl eq_refl eq_refl (or_intror eq_refl)) as H1.
  pose proof (redeem_owner_refused Sample.market Sample.bob Sample.hat
              (mkUser 100 0 3) (mkItem Sample.bob 80 false true false 0 0 [])
              eq_refl eq_refl eq_refl (or_introl eq_refl)) as H2.
  split; [rewrite H1; reflexivity|rewrite H2; reflexivity].
Defined.

(** X5: an item can be redeemed once: after a successful redemption a
    second one by the owner is answered 400 "Item is not available for
    redemption" and writes nothing, whatever the balance. *)
Theorem redeem_owner_once db uid id :
  code (response (exec (redeem_owner uid id) db)) = 200 →
  let after := final (exec (redeem_owner uid id) db) in
  exec (redeem_owner uid id) after =
    mkRun (mkResponse 400 "Item is not available for redemption") after [].
Proof.
  intros Hok after. subst after.
  destruct (redeem_owner_inv db uid id)
    as [(r & Hrun & Hr)|(u & item & Hu & Hi & Ho & Ha & Hp)].
  { rewrite Hrun in Hok. done. }
  rewrite (redeem_owner_run db uid id u item Hu Hi Ho Ha Hp). cbn [final].
  match goal with |- exec _ ?d = _ => set (after := d) end.
  assert (is_Some (users after !! uid)) as [u' Hu'].
  { subst after. cbn. rewrite !lookup_alter_eq, Hu. by eexists. }
  assert (items after !! id = Some (set_unavailable item)) as Hi'.
  { subst after. cbn. by rewrite lookup_alter_eq, Hi. }
  apply (redeem_owner_refused after uid id u' (set_unavailable item) Hu' Hi' Ho).
  by left.
Qed.

Lemma redeem_owner_once_witness :
  code (response (exec (redeem_owner Sample.alice Sample.scarf)
                   (final (exec (redeem_owner Sample.alice Sample.scarf)
                                Sample.market)))) = 400.
Proof.
  rewrite (redeem_owner_once Sample.market Sample.alice Sample.scarf eq_refl).
  reflexivity.
Defined.

(** ** What one request does to the items and to the swaps *)

Lemma items_step_refl m : items_step m m.
Proof. intros i it' H. exists it'. split; [done|constructor]. Qed.

Lemma items_step_alter (f : Item → Item) i (m : gmap N Item) :
  (∀ it, item_saved it (f it)) → items_step m (alter f i m).
Proof.
  intros Hf j it' Hj. rewrite lookup_alter in Hj. case_decide; [subst j|].
  - destruct (m !! i) as [it|] eqn:Hi; [|done]. cbn in Hj.
    injection Hj as <-. eauto.
  - exists it'. split; [done|constructor].
Qed.

Lemma items_step_insert i it it' (m : gmap N Item) :
  m !! i = Some it → item_saved it it' → items_step m (<[i:=it']> m).
Proof.
  intros Hi Hs j it2 Hj. rewrite lookup_insert in Hj. case_decide; [subst j|].
  - injection Hj as <-. eauto.
  - exists it2. split; [done|constructor].
Qed.

Lemma items_step_delete i (m : gmap N Item) : items_step m (delete i m).
Proof.
  intros j it' Hj. apply lookup_delete_Some in Hj as [_ Hj].
  exists it'. split; [done|constructor].
Qed.

Lemma items_step_unavailable_all ids r (m : gmap N Item) :
  items_step m (unavailable_all ids (alter set_unavailable r m)).
Proof.
  intros j it' Hj. rewrite unavailable_all_lookup in Hj.
  assert (alter set_unavailable r m !! j
          = if decide (r = j) then set_unavailable <$> m !! j else m !! j) as Hr
    by (rewrite lookup_alter; destruct (decide (r = j)) as [->|]; done).
  rewrite Hr in Hj. clear Hr.
  destruct (m !! j) as [it|]; [|by repeat case_decide].
  exists it. split; [done|].
  repeat case_decide; cbn [fmap option_fmap option_map] in Hj;
    injection Hj as <-; rewrite ?set_unavailable_idemp; constructor.
Qed.

Lemma swap_saved_step db id s s' :
  swaps db !! id = Some s → swap_saved s s' →
  ∀ d, swaps d = <[id:=s']> (swaps db) → swaps_step db d.
Proof. intros Hs Hsv d Hd. right; left. by exists id, s, s'. Qed.

Lemma rate_run db uid id score c now u swap :
  users db !! uid = Some u →
  swaps db !! id = Some swap →
  requester swap = uid →
  status swap = completed →
  let d := set_swaps (insert id (addRating uid score c now swap)) db in
  exec (rate uid id score c now) db =
    mkRun (mkResponse 200 "Rating added successfully") d [d].
Proof.
  intros Hu Hs Hr Hst. unfold_handler. rewrite Hu, Hs.
  destruct (decide (requester swap = uid)); [|done]. cbn.
  by destruct (decide (status swap ≠ completed)).
Qed.

Lemma rate_inv_requester uid id score c now db :
  (∃ r, exec (rate uid id score c now) db = mkRun r db [] ∧ code r ≠ 200) ∨
  (∃ u swap, users db !! uid = Some u ∧ swaps db !! id = Some swap ∧
             requester swap = uid ∧ status swap = completed).
Proof.
  unfold_handler.
  destruct (users db !! uid) as [u|] eqn:Hu; [|left; eexists; by split].
  destruct (swaps db !! id) as [swap|] eqn:Hs; [|left; eexists; by split].
  destruct (decide (requester swap = uid)); [|left; eexists; by split].
  cbn. destruct (decide (status swap ≠ completed)); [left; eexists; by split|].
  right. exists u, swap. repeat split; try done.
  by destruct (decide (status swap = completed)).
Qed.

Lemma mark_unavailable_inv db uid id :
  (∃ r, exec (mark_unavailable uid id) db = mkRun r db [] ∧ code r ≠ 200) ∨
  (∃ u item, users db !! uid = Some u ∧ items db !! id = Some item ∧
             owner item = uid ∧ isAvailable item = true).
Proof.
  unfold_handler.
  destruct (users db !! uid) as [u|] eqn:Hu; [|left; eexists; by split].
  destruct (items db !! id) as [item|] eqn:Hi; [|left; eexists; by split].
  destruct (decide (owner item ≠ uid)); [left; eexists; by split|].
  destruct (isAvailable item) eqn:Ha; cbn; [|left; eexists; by split].
  right. exists u, item. repeat split; try done.
  by destruct (decide (owner item = uid)).
Qed.

Lemma like_inv db uid id :
  (∃ r, exec (like uid id) db = mkRun r db [] ∧ code r ≠ 200) ∨
  (∃ u item, users db !! uid = Some u ∧ items db !! id = Some item).
Proof.
  unfold_handler.
  destruct (users db !! uid) as [u|] eqn:Hu; [|left; eexists; by split].
  destruct (items db !! id) as [item|] eqn:Hi; [|left; eexists; by split].
  right. by exists u, item.
Qed.

Lemma get_item_run db id :
  exec (get_item id) db =
    match items db !! id with
    | None => mkRun (mkResponse 404 "Item not found") db []
    | Some item =>
        mkRun (mkResponse 200 "")
              (set_items (insert id (incrementViews item)) db)
              [set_items (insert id (incrementViews item)) db]
    end.
Proof. unfold_more. by destruct (items db !! id). Qed.

Lemma approve_inv db uid role id :
  (∃ r, exec (approve uid role id) db = mkRun r db [] ∧ code r ≠ 200) ∨
  (∃ u item, users db !! uid = Some u ∧ role = admin_role ∧
             items db !! id = Some item ∧ isApproved item = false ∧
             let d := set_items (insert id (set_moderation true false item)) db in
             exec (approve uid role id) db =
               mkRun (mkResponse 200 "Item approved successfully") d [d]).
Proof.
  unfold_more.
  destruct (users db !! uid) as [u|] eqn:Hu; [|left; eexists; by split].
  destruct (decide (role ≠ admin_role)) as [|Hrole]; [left; eexists; by split|].
  assert (role = admin_role) as -> by (destruct role; [by destruct Hrole|done]).
  destruct (items db !! id) as [item|] eqn:Hi; [|left; eexists; by split].
  destruct (isApproved item) eqn:Ha; [left; eexists; by split|].
  right. exists u, item. by repeat split.
Qed.

Lemma reject_item_inv db uid role id reason :
  (∃ r, exec (reject_item uid role id reason) db = mkRun r db [] ∧ code r ≠ 200) ∨
  (∃ u item, users db !! uid = Some u ∧ role = admin_role ∧
             items db !! id = Some item ∧ isRejected item = false ∧
             let d := set_items (insert id (set_moderation false true item)) db in
             exec (reject_item uid role id reason) db =
               mkRun (mkResponse 200 "Item rejected successfully") d [d]).
Proof.
  unfold_more.
  destruct (users db !! uid) as [u|] eqn:Hu; [|left; eexists; by split].
  destruct (decide (role ≠ admin_role)) as [|Hrole]; [left; eexists; by split|].
  assert (role = admin_role) as -> by (destruct role; [by destruct Hrole|done]).
  destruct (items db !! id) as [item|] eqn:Hi; [|left; eexists; by split].
  destruct (isRejected item) eqn:Hr; [left; eexists; by split|].
  right. exists u, item. by repeat split.
Qed.

Lemma update_points_run db uid role id p :
  (∃ r, exec (update_points uid role id p) db = mkRun r db [] ∧ code r ≠ 200) ∨
  (∃ u, users db !! uid = Some u ∧ role = admin_role ∧ 0 ≤ p ∧
        let d := set_users (alter (set_points p) id) db in
        exec (update_points uid role id p) db =
          mkRun (match users db !! id with
                 | None => mkResponse 404 "User not found"
                 | Some _ => mkResponse 200 "User points updated successfully"
                 end) d [d]).
Proof.
  unfold_more.
  destruct (users db !! uid) as [u|] eqn:Hu; [|left; eexists; by split].
  destruct (decide (role ≠ admin_role)) as [|Hrole]; [left; eexists; by split|].
  assert (role = admin_role) as -> by (destruct role; [by destruct Hrole|done]).
  destruct (decide (p < 0)); [left; eexists; by split|].
  right. exists u. repeat split; try done; [lia|].
  by destruct (users db !! id).
Qed.

Lemma swaps_step_refl db d : swaps d = swaps db → swaps_step db d.
Proof. by left. Qed.

Lemma handle_step rq db :
  items_step (items db) (items (final (exec (handle rq) db))) ∧
  swaps_step db (final (exec (handle rq) db)).
Proof.
  destruct rq as [uid b|uid id action msg txn|uid id now|uid id reason
                 |uid id score c now|uid id|uid id]; cbn [handle].
  - destruct (create_inv uid b db) as [(r & -> & _)|(Hvalid & _ & ->)];
      cbn [final]; [split; [apply items_step_refl|by left]|].
    split; [apply items_step_refl|]. right; right.
    destruct Hvalid as (u & item & _ & Hi & _ & _ & Ho & _).
    exists (fresh (dom (swaps db))), (new_Swap uid b), item.
    split; [apply fresh_swap_id|]. by repeat split.
  - destruct (respond_inv db uid id action msg txn)
      as [(r & -> & _)|(u & swap & item & Hu & Hs & Hi & Ho & Hp)];
      cbn [final]; [split; [apply items_step_refl|by left]|].
    destruct action.
    + destruct (swapType swap) eqn:Hty.
      * destruct (respond_accept_direct_run db uid id msg txn u swap item
                    Hu Hs Hi Ho Hp Hty) as (l & -> & _). cbn [final]. split.
        -- cbn. apply items_step_unavailable_all.
        -- eapply swap_saved_step; [exact Hs| |reflexivity].
           constructor; auto.
      * rewrite (respond_accept_points_run db uid id msg txn u swap item
                   Hu Hs Hi Ho Hp Hty). cbn [final]. split.
        -- cbn. apply items_step_alter. constructor.
        -- eapply swap_saved_step; [exact Hs| |reflexivity].
           constructor; auto.
    + rewrite (respond_reject_run db uid id msg txn u swap item Hu Hs Hi Ho Hp).
      cbn [final]. split; [apply items_step_refl|].
      eapply swap_saved_step; [exact Hs| |reflexivity]. constructor; auto.
  - destruct (complete_inv uid id now db)
      as [(r & -> & _)|(u & swap & Hu & Hs & Hinv & Hst)];
      cbn [final]; [split; [apply items_step_refl|by left]|].
    rewrite (complete_run db uid id u swap Hu Hs Hinv now Hst). cbn [final].
    split; [apply items_step_refl|].
    eapply swap_saved_step; [exact Hs| |reflexivity]. by constructor.
  - destruct (cancel_inv uid id reason db)
      as [(r & -> & _)|(u & swap & Hu & Hs & Hinv & Hst)];
      cbn [final]; [split; [apply items_step_refl|by left]|].
    rewrite (cancel_run db uid id u swap Hu Hs Hinv reason Hst). cbn [final].
    split; [apply items_step_refl|].
    eapply swap_saved_step; [exact Hs| |reflexivity]. by constructor.
  - destruct (rate_inv_requester uid id score c now db)
      as [(r & -> & _)|(u & swap & Hu & Hs & Hr & Hst)];
      cbn [final]; [split; [apply items_step_refl|by left]|].
    rewrite (rate_run db uid id score c now u swap Hu Hs Hr Hst). cbn [final].
    split; [apply items_step_refl|].
    eapply swap_saved_step; [exact Hs| |reflexivity].
    rewrite <- Hr. by constructor.
  - destruct (mark_unavailable_inv db uid id)
      as [(r & -> & _)|(u & item & Hu & Hi & Ho & Ha)];
      cbn [final]; [split; [apply items_step_refl|by left]|].
    rewrite (mark_unavailable_run db uid id u item Hu Hi Ho Ha). cbn [final].
    split; [cbn; apply items_step_delete|by left].
  - destruct (like_inv db uid id) as [(r & -> & _)|(u & item & Hu & Hi)];
      cbn [final]; [split; [apply items_step_refl|by left]|].
    rewrite (like_run db uid id u item Hu Hi). cbn [final].
    split; [|by left]. cbn. eapply items_step_insert; [done|constructor].
Qed.

Lemma perform_step op db :
  items_step (items db) (items (final (exec (perform op) db))) ∧
  swaps_step db (final (exec (perform op) db)).
Proof.
  destruct op as [rq|id|uid id|uid role id|uid role id reason|uid role id p];
    cbn [perform].
  - apply handle_step.
  - rewrite get_item_run. destruct (items db !! id) as [item|] eqn:Hi; cbn [final].
    + split; [|by left]. cbn. eapply items_step_insert; [done|constructor].
    + split; [apply items_step_refl|by left].
  - destruct (redeem_owner_inv db uid id)
      as [(r & -> & _)|(u & item & Hu & Hi & Ho & Ha & Hp)];
      cbn [final]; [split; [apply items_step_refl|by left]|].
    rewrite (redeem_owner_run db uid id u item Hu Hi Ho Ha Hp). cbn [final].
    split; [|by left]. cbn. apply items_step_alter. constructor.
  - destruct (approve_inv db uid role id)
      as [(r & -> & _)|(u & item & Hu & _ & Hi & _ & ->)];
      cbn [final]; [split; [apply items_step_refl|by left]|].
    split; [|by left]. cbn. eapply items_step_insert; [done|constructor].
  - destruct (reject_item_inv db uid role id reason)
      as [(r & -> & _)|(u & item & Hu & _ & Hi & _ & ->)];
      cbn [final]; [split; [apply items_step_refl|by left]|].
    split; [|by left]. cbn. eapply items_step_insert; [done|constructor].
  - destruct (update_points_run db uid role id p)
      as [(r & -> & _)|(u & Hu & _ & _ & ->)];
      cbn [final]; (split; [apply items_step_refl|by left]).
Qed.

(** ** Invariants of the request sequences *)

Lemma perform_all_cons op ops db :
  perform_all (op :: ops) db = perform_all ops (final (exec (perform op) db)).
Proof. done. Qed.

Lemma item_saved_step it it' : item_saved it it' → item_step it it'.
Proof.
  destruct 1 as [| |u| |a r]; unfold item_step; try done.
  unfold toggleLike. by destruct (indexOf u (likedBy it)).
Qed.

Lemma item_step_trans it1 it2 it3 :
  item_step it1 it2 → item_step it2 it3 → item_step it1 it3.
Proof.
  intros (Ho1 & Hp1 & Ha1) (Ho2 & Hp2 & Ha2). unfold item_step.
  repeat split; [congruence|congruence|auto].
Qed.

(** X6: whatever sequence of the modelled requests is handled (the swap
    routes, like, view, mark-unavailable, redeem-owner, moderation and the
    admin points update, not the item update), every item present at the end was present at the
    start with the same owner and the same [pointsValue], and if it was
    unavailable at the start it is unavailable at the end: none of these
    routes puts an item back into the pool or hands it to another owner. *)
Theorem items_never_relisted ops db i it' :
  items (perform_all ops db) !! i = Some it' →
  ∃ it, items db !! i = Some it ∧ item_step it it'.
Proof.
  revert db. induction ops as [|op ops IH]; intros db Hi.
  - exists it'. split; [done|]. by repeat split.
  - rewrite perform_all_cons in Hi. apply IH in Hi as (it1 & Hi1 & Hstep).
    destruct (perform_step op db) as [Hitems _].
    apply Hitems in Hi1 as (it & Hi0 & Hsaved).
    exists it. split; [done|].
    eapply item_step_trans; [by apply item_saved_step|done].
Qed.

Lemma items_never_relisted_witness :
  ∃ it, items Sample.market !! Sample.coat = Some it ∧
        item_step it (set_unavailable (mkItem Sample.bob 500 true true false 0 0 [])).
Proof.
  apply (items_never_relisted
           [OpSwap (ReqCreate Sample.alice (Sample.for_points Sample.coat 500));
            OpSwap (ReqRespond Sample.bob 0%N accept None "TXN_1");
            OpSwap (ReqCancel Sample.alice 0%N None)]
           Sample.market Sample.coat).
  reflexivity.
Defined.

Lemma swap_saved_terms s s' : swap_saved s s' → same_terms s s'.
Proof.
  destruct 1 as [st m txn _ _|now _|uid reason _|score c now _];
    unfold same_terms; try done.
  unfold addRating. by destruct (decide (requester s = requester s)).
Qed.

Lemma same_terms_trans s1 s2 s3 :
  same_terms s1 s2 → same_terms s2 s3 → same_terms s1 s3.
Proof.
  unfold same_terms. intros (?&?&?&?&?&?&?) (?&?&?&?&?&?&?).
  repeat split; congruence.
Qed.

Lemma swaps_step_lookup db d id s :
  swaps_step db d → swaps db !! id = Some s →
  swaps d !! id = Some s ∨ ∃ s', swaps d !! id = Some s' ∧ swap_saved s s'.
Proof.
  intros [->|[(id0 & s0 & s0' & Hs0 & -> & Hsv)|(id0 & s0' & item & Hn & -> & _)]] Hs.
  - by left.
  - destruct (decide (id0 = id)) as [->|Hne].
    + right. exists s0'. rewrite lookup_insert_eq. split; [done|]. congruence.
    + left. by rewrite lookup_insert_ne.
  - left. rewrite lookup_insert_ne; [done|congruence].
Qed.

(** X7: swaps are never deleted and their terms never change: after any
    sequence of the modelled requests a swap still has the requester,
    requested item, offered items, type, points offered and message it
    was created with.  Its [ownerRating] is also what it was: no route
    ever writes that slot. *)
Theorem swap_terms_fixed ops db id s :
  swaps db !! id = Some s →
  ∃ s', swaps (perform_all ops db) !! id = Some s' ∧ same_terms s s'.
Proof.
  revert db s. induction ops as [|op ops IH]; intros db s Hs.
  - exists s. split; [done|]. by repeat split.
  - rewrite perform_all_cons.
    destruct (perform_step op db) as [_ Hswaps].
    destruct (swaps_step_lookup _ _ id s Hswaps Hs) as [Hs1|(s1 & Hs1 & Hsv)].
    + by apply IH.
    + destruct (IH _ _ Hs1) as (s' & Hs' & Hterms). exists s'. split; [done|].
      eapply same_terms_trans; [by apply swap_saved_terms|done].
Qed.

Lemma swap_terms_fixed_witness :
  ∃ s', swaps (perform_all
                 [OpSwap (ReqRespond Sample.bob 0%N accept None "TXN_1");
                  OpSwap (ReqComplete Sample.alice 0%N 1700000000);
                  OpSwap (ReqRate Sample.alice 0%N 5 None 1700000001)]
                 Sample.coat_requested) !! 0%N = Some s' ∧
        same_terms (new_Swap Sample.alice (Sample.for_points Sample.coat 500)) s'.
Proof.
  apply swap_terms_fixed. reflexivity.
Defined.

Lemma swap_saved_not_closed s s' :
  swap_saved s s' → status s ≠ rejected ∧ status s ≠ cancelled.
Proof.
  destruct 1 as [st m txn E _|now E|uid reason [E|E]|score c now E];
    rewrite E; by split.
Qed.

Lemma swap_saved_completed s s' :
  swap_saved s s' → status s = completed →
  status s' = completed ∧ same_but_ratings s s'.
Proof.
  destruct 1 as [st m txn E _|now E|uid reason [E|E]|score c now E];
    intros Hc; try congruence.
  unfold addRating, same_but_ratings.
  by destruct (decide (requester s = requester s)).
Qed.

Lemma same_but_ratings_trans s1 s2 s3 :
  same_but_ratings s1 s2 → same_but_ratings s2 s3 → same_but_ratings s1 s3.
Proof.
  unfold same_but_ratings. intros H12 H23. rewrite H23 at 1. by rewrite H12.
Qed.

(** X8: the terminal states are final.  A rejected or cancelled swap is
    never written again: after any sequence of the modelled requests its
    document is identical.  A completed swap stays completed and only its
    ratings can still change. *)
Theorem terminal_is_final ops db id s :
  swaps db !! id = Some s →
  (status s = rejected ∨ status s = cancelled →
   swaps (perform_all ops db) !! id = Some s) ∧
  (status s = completed →
   ∃ s', swaps (perform_all ops db) !! id = Some s' ∧
         status s' = completed ∧ same_but_ratings s s').
Proof.
  revert db s. induction ops as [|op ops IH]; intros db s Hs.
  - split; [done|]. intros Hc. exists s. split; [done|]. split; [done|].
    unfold same_but_ratings. by destruct s.
  - rewrite perform_all_cons.
    destruct (perform_step op db) as [_ Hswaps].
    destruct (swaps_step_lookup _ _ id s Hswaps Hs) as [Hs1|(s1 & Hs1 & Hsv)].
    + by apply IH.
    + split.
      * intros Hclosed. destruct (swap_saved_not_closed _ _ Hsv).
        by destruct Hclosed.
      * intros Hc. destruct (swap_saved_completed _ _ Hsv Hc) as [Hc1 H01].
        destruct (IH _ _ Hs1) as [_ Hcompleted].
        destruct (Hcompleted Hc1) as (s' & Hs' & Hc' & H1').
        exists s'. split; [done|]. split; [done|].
        by eapply same_but_ratings_trans.
Qed.

Lemma terminal_is_final_witness :
  swaps (perform_all
           [OpSwap (ReqRespond Sample.bob 0%N accept None "TXN_9");
            OpSwap (ReqCancel Sample.alice 0%N None);
            OpSwap (ReqComplete Sample.bob 0%N 1700000000)]
           Sample.coat_refused) !! 0%N
  = swaps Sample.coat_refused !! 0%N.
Proof.
  destruct (terminal_is_final
              [OpSwap (ReqRespond Sample.bob 0%N accept None "TXN_9");
               OpSwap (ReqCancel Sample.alice 0%N None);
               OpSwap (ReqComplete Sample.bob 0%N 1700000000)]
              Sample.coat_refused 0%N
              (set_response rejected "" None
                 (new_Swap Sample.alice (Sample.for_points Sample.coat 500)))
              eq_refl) as [H _].
  rewrite H; [reflexivity|by left].
Defined.

Lemma parties_distinct_step op db :
  parties_distinct db → parties_distinct (final (exec (perform op) db)).
Proof.
  intros Hinv id s' item' Hs' Hi'.
  destruct (perform_step op db) as [Hitems Hswaps].
  apply Hitems in Hi' as (item & Hi & Hsaved).
  apply item_saved_step in Hsaved as (Ho & _). rewrite Ho.
  destruct Hswaps
    as [E|[(id0 & s0 & s0' & Hs0 & E & Hsv)|(id0 & s0' & itemX & Hn & E & _ & HiX & HoX)]];
    rewrite E in Hs'.
  - by apply (Hinv id s' item).
  - apply lookup_insert_Some in Hs' as [[-> ->]|[_ Hs']];
      [|by apply (Hinv id s' item)].
    apply swap_saved_terms in Hsv as (Hr & Hq & _).
    rewrite Hr. apply (Hinv id s0 item); [done|]. by rewrite <- Hq.
  - apply lookup_insert_Some in Hs' as [[-> ->]|[_ Hs']];
      [|by apply (Hinv id s' item)].
    congruence.
Qed.

(** X9: nobody ever holds a swap on their own item: if in the starting
    state no swap's requester owns the item it requests, the same is true
    after any sequence of the modelled requests. *)
Theorem parties_stay_distinct ops db :
  parties_distinct db → parties_distinct (perform_all ops db).
Proof.
  revert db. induction ops as [|op ops IH]; intros db Hinv; [done|].
  rewrite perform_all_cons. by apply IH, parties_distinct_step.
Qed.

Lemma parties_stay_distinct_witness :
  parties_distinct
    (perform_all [OpSwap (ReqCreate Sample.alice (Sample.for_points Sample.coat 500));
                  OpSwap (ReqCreate Sample.bob (Sample.for_points Sample.coat 500))]
                 Sample.market).
Proof.
  apply parties_stay_distinct.
  intros id s item Hs. cbn in Hs. by rewrite lookup_empty in Hs.
Defined.

Lemma toggleLike_consistent u it :
  likes_consistent it → likes_consistent (toggleLike u it).
Proof.
  intros [Hl Hnd]. split; [|by apply toggleLike_NoDup].
  unfold toggleLike.
  destruct (indexOf u (likedBy it)) as [i|] eqn:Hidx; cbn [likes likedBy].
  - apply indexOf_Some in Hidx.
    rewrite length_delete by (by eexists).
    apply lookup_lt_Some in Hidx. lia.
  - rewrite length_app. cbn. lia.
Qed.

Lemma item_saved_consistent it it' :
  item_saved it it' → likes_consistent it → likes_consistent it'.
Proof.
  destruct 1 as [| |u| |a r]; try done. apply toggleLike_consistent.
Qed.

(** X10: the [likes] counter counts the users in [likedBy]: if for every
    item [likes] is the length of [likedBy] and [likedBy] holds nobody
    twice (as for a new item, with 0 and the empty list), this is so after
    any sequence of the modelled requests. *)
Theorem likes_count_likedBy ops db :
  (∀ i it, items db !! i = Some it → likes_consistent it) →
  ∀ i it, items (perform_all ops db) !! i = Some it → likes_consistent it.
Proof.
  revert db. induction ops as [|op ops IH]; intros db Hinv; [done|].
  rewrite perform_all_cons. apply IH.
  intros i it' Hi'. destruct (perform_step op db) as [Hitems _].
  apply Hitems in Hi' as (it & Hi & Hsaved).
  eapply item_saved_consistent; [done|]. by eapply Hinv.
Qed.

Lemma likes_count_likedBy_witness :
  likes_consistent (toggleLike Sample.alice Sample.scarf_doc).
Proof.
  apply (likes_count_likedBy [OpSwap (ReqLike Sample.alice Sample.scarf)]
           Sample.market) with (i := Sample.scarf); [|reflexivity].
  intros i it Hi. unfold Sample.market in Hi. cbn [items] in Hi.
  repeat (apply lookup_insert_Some in Hi as [[_ <-]|[_ Hi]];
          [split; [reflexivity|repeat constructor; set_solver]|]).
  by rewrite lookup_empty in Hi.
Defined.

(** ** Rejecting, completing and rating *)

(** X11: when the owner of the requested item rejects a pending swap,
    the handler writes once: the swap gets status rejected and the
    response message (the empty string when none is sent); every other
    field of the swap, every other swap, every user and every item is as
    before. *)
Theorem respond_reject_frame db uid id msg txn u swap item :
  users db !! uid = Some u →
  swaps db !! id = Some swap →
  items db !! requestedItem swap = Some item →
  owner item = uid →
  status swap = pending →
  let run := exec (respond uid id reject msg txn) db in
  response run = mkResponse 200 "Swap rejected successfully" ∧
  trace run = [final run] ∧
  users (final run) = users db ∧
  items (final run) = items db ∧
  (∀ j, j ≠ id → swaps (final run) !! j = swaps db !! j) ∧
  swaps (final run) !! id =
    Some (mkSwap (requester swap) (requestedItem swap) (offeredItems swap)
            rejected (swapType swap) (pointsOffered swap) (message swap)
            (default "" msg) (isCompleted swap) (completedAt swap)
            (cancelledBy swap) (cancellationReason swap)
            (requesterRating swap) (ownerRating swap) (pointsTransaction swap)).
Proof.
  intros Hu Hs Hi Ho Hp run. subst run.
  rewrite (respond_reject_run db uid id msg txn u swap item Hu Hs Hi Ho Hp).
  cbn [response final trace users items swaps set_swaps].
  repeat split.
  - intros j Hne. by apply lookup_insert_ne.
  - by rewrite lookup_insert_eq.
Qed.

Lemma respond_reject_frame_witness :
  users Sample.coat_refused = users Sample.coat_requested ∧
  items Sample.coat_refused = items Sample.coat_requested ∧
  (status <$> swaps Sample.coat_refused !! 0%N) = Some rejected.
Proof.
  destruct (respond_reject_frame Sample.coat_requested Sample.bob 0%N None ""
              (mkUser 100 0 3)
              (new_Swap Sample.alice (Sample.for_points Sample.coat 500))
              (mkItem Sample.bob 500 true true false 0 0 [])
              eq_refl eq_refl eq_refl eq_refl eq_refl)
    as (_ & _ & Hu & Hi & _ & Hs).
  split; [exact Hu|]. split; [exact Hi|].
  change (swaps Sample.coat_refused !! 0%N)
    with (swaps (final (exec (respond Sample.bob 0%N reject None "")
                             Sample.coat_requested)) !! 0%N).
  by rewrite Hs.
Defined.

(** X12: completing an accepted swap, by its requester or by the owner
    of the requested item, writes once: status completed, [isCompleted]
    true and [completedAt] the current time; nothing else in the swap
    changes, and no user or item is touched - completion moves no points
    and no item. *)
Theorem complete_effect db uid id now u swap :
  users db !! uid = Some u →
  swaps db !! id = Some swap →
  involved uid swap db →
  status swap = accepted →
  let run := exec (complete uid id now) db in
  response run = mkResponse 200 "Swap completed successfully" ∧
  trace run = [final run] ∧
  users (final run) = users db ∧
  items (final run) = items db ∧
  (∀ j, j ≠ id → swaps (final run) !! j = swaps db !! j) ∧
  swaps (final run) !! id =
    Some (mkSwap (requester swap) (requestedItem swap) (offeredItems swap)
            completed (swapType swap) (pointsOffered swap) (message swap)
            (responseMessage swap) true (Some now)
            (cancelledBy swap) (cancellationReason swap)
            (requesterRating swap) (ownerRating swap) (pointsTransaction swap)).
Proof.
  intros Hu Hs Hinv Hst run. subst run.
  rewrite (complete_run db uid id u swap Hu Hs Hinv now Hst).
  cbn [response final trace users items swaps set_swaps].
  repeat split.
  - intros j Hne. by apply lookup_insert_ne.
  - by rewrite lookup_insert_eq.
Qed.

Lemma complete_effect_witness :
  users Sample2.coat_completed = users Sample.coat_accepted ∧
  (completedAt <$> swaps Sample2.coat_completed !! 0%N) = Some (Some 1700000000).
Proof.
  destruct (complete_effect Sample.coat_accepted Sample.alice 0%N 1700000000
              (mkUser 100 1 1)
              (set_response accepted ""
                 (Some (mkTxn Sample.alice Sample.bob 500 "TXN_1"))
                 (new_Swap Sample.alice (Sample.for_points Sample.coat 500)))
              eq_refl eq_refl) as (_ & _ & Hu & _ & _ & Hs);
    [by left|reflexivity|].
  split; [exact Hu|].
  change (swaps Sample2.coat_completed !! 0%N)
    with (swaps (final (exec (complete Sample.alice 0%N 1700000000)
                             Sample.coat_accepted)) !! 0%N).
  by rewrite Hs.
Defined.

(** X13: only the requester can rate.  The rate route loads the swap
    without populating [requestedItem], so for any authenticated caller
    other than the requester - the owner of the requested item included -
    the involvement test throws: the answer is 500 and nothing is
    written, whatever the status of the swap. *)
Theorem rate_only_requester db uid id score c now u swap :
  users db !! uid = Some u →
  swaps db !! id = Some swap →
  requester swap ≠ uid →
  exec (rate uid id score c now) db =
    mkRun (mkResponse 500 "Error adding rating") db [].
Proof.
  intros Hu Hs Hne. unfold_handler. rewrite Hu, Hs.
  by destruct (decide (requester swap = uid)).
Qed.

Lemma rate_only_requester_witness :
  exec (rate Sample.bob 0%N 5 (Some "thanks") 1700000001) Sample2.coat_completed =
    mkRun (mkResponse 500 "Error adding rating") Sample2.coat_completed [].
Proof.
  apply (rate_only_requester Sample2.coat_completed Sample.bob 0%N 5
           (Some "thanks") 1700000001 (mkUser 700 1 3)
           (completeSwap 1700000000
              (set_response accepted ""
                 (Some (mkTxn Sample.alice Sample.bob 500 "TXN_1"))
                 (new_Swap Sample.alice (Sample.for_points Sample.coat 500)))));
    [reflexivity|reflexivity|discriminate].
Defined.

(** X14: when the requester rates one of their swaps, a completed swap
    gets the score, comment and time in its [requesterRating] slot,
    replacing whatever rating was there, and nothing else changes: the
    other fields of the swap, the other swaps, the users (no rating or
    review count is updated) and the items.  A swap that is not completed
    is answered 400 and nothing is written. *)
Theorem rate_effect db uid id score c now u swap :
  users db !! uid = Some u →
  swaps db !! id = Some swap →
  requester swap = uid →
  let run := exec (rate uid id score c now) db in
  (status swap ≠ completed →
   run = mkRun (mkResponse 400 "Can only rate completed swaps") db []) ∧
  (status swap = completed →
   response run = mkResponse 200 "Rating added successfully" ∧
   users (final run) = users db ∧
   items (final run) = items db ∧
   (∀ j, j ≠ id → swaps (final run) !! j = swaps db !! j) ∧
   ∃ s', swaps (final run) !! id = Some s' ∧
         requesterRating s' = Some (mkRating score c now) ∧
         ownerRating s' = ownerRating swap ∧
         same_but_ratings swap s').
Proof.
  intros Hu Hs Hr run. subst run. split.
  - intros Hst. unfold_handler. rewrite Hu, Hs.
    destruct (decide (requester swap = uid)); [|done]. cbn.
    by destruct (decide (status swap ≠ completed)).
  - intros Hst. rewrite (rate_run db uid id score c now u swap Hu Hs Hr Hst).
    cbn [response final users items swaps set_swaps].
    repeat split.
    + intros j Hne. by apply lookup_insert_ne.
    + eexists. rewrite lookup_insert_eq. split; [done|].
      unfold addRating, same_but_ratings.
      by destruct (decide (uid = requester swap)).
Qed.

Lemma rate_effect_witness :
  ∃ s', swaps (serve [ReqRate Sample.alice 0%N 3 None 1700000001;
                      ReqRate Sample.alice 0%N 5 (Some "thanks") 1700000002]
                     Sample2.coat_completed) !! 0%N = Some s' ∧
        requesterRating s' = Some (mkRating 5 (Some "thanks") 1700000002).
Proof.
  destruct (rate_effect
              (serve [ReqRate Sample.alice 0%N 3 None 1700000001]
                     Sample2.coat_completed)
              Sample.alice 0%N 5 (Some "thanks") 1700000002 (mkUser 100 1 1)
              (addRating Sample.alice 3 None 1700000001
                 (completeSwap 1700000000
                    (set_response accepted ""
                       (Some (mkTxn Sample.alice Sample.bob 500 "TXN_1"))
                       (new_Swap Sample.alice (Sample.for_points Sample.coat 500)))))
              eq_refl eq_refl eq_refl) as [_ H].
  destruct (H eq_refl) as (_ & _ & _ & _ & s' & Hs' & Hr & _).
  exists s'. split; [exact Hs'|exact Hr].
Defined.

(** ** What a response leaves alone, and what follows an acceptance *)

(** X15: a response to a swap concerns its two parties and its items
    only: whatever the action and the outcome, afterwards every user
    other than the requester and the caller, every item other than the
    requested and the offered ones, and every other swap is as before. *)
Theorem respond_touches_parties_only db uid id action msg txn swap :
  swaps db !! id = Some swap →
  let after := final (exec (respond uid id action msg txn) db) in
  (∀ v, v ≠ requester swap → v ≠ uid → users after !! v = users db !! v) ∧
  (∀ i, i ≠ requestedItem swap → i ∉ offeredItems swap →
        items after !! i = items db !! i) ∧
  (∀ j, j ≠ id → swaps after !! j = swaps db !! j).
Proof.
  intros Hs after. subst after.
  destruct (respond_inv db uid id action msg txn)
    as [(r & -> & _)|(u & swap' & item & Hu & Hs' & Hi & Ho & Hp)]; [done|].
  assert (swap' = swap) as -> by congruence.
  destruct action.
  - destruct (swapType swap) eqn:Hty.
    + destruct (respond_accept_direct_run db uid id msg txn u swap item
                  Hu Hs Hi Ho Hp Hty) as (l & -> & _).
      rewrite Ho. cbn [final users items swaps set_users set_items set_swaps].
      repeat split.
      * intros v Hv1 Hv2. by rewrite !lookup_alter_ne.
      * intros i Hi1 Hi2. rewrite unavailable_all_lookup, decide_False.
        -- by rewrite lookup_alter_ne.
        -- rewrite elem_of_populated. tauto.
      * intros j Hj. by rewrite lookup_insert_ne.
    + rewrite (respond_accept_points_run db uid id msg txn u swap item
                 Hu Hs Hi Ho Hp Hty).
      rewrite Ho. cbn [final users items swaps set_users set_items set_swaps].
      repeat split.
      * intros v Hv1 Hv2. by rewrite !lookup_alter_ne.
      * intros i Hi1 Hi2. by rewrite lookup_alter_ne.
      * intros j Hj. by rewrite lookup_insert_ne.
  - rewrite (respond_reject_run db uid id msg txn u swap item Hu Hs Hi Ho Hp).
    cbn [final users items swaps set_swaps]. repeat split.
    intros j Hj. by rewrite lookup_insert_ne.
Qed.

Lemma respond_touches_parties_only_witness :
  users (final (exec (respond Sample.bob 0%N accept None "TXN_1")
                     (set_users (insert Sample2.carol (mkUser 40 0 0))
                                Sample.coat_requested))) !! Sample2.carol
  = Some (mkUser 40 0 0).
Proof.
  destruct (respond_touches_parties_only
              (set_users (insert Sample2.carol (mkUser 40 0 0)) Sample.coat_requested)
              Sample.bob 0%N accept None "TXN_1"
              (new_Swap Sample.alice (Sample.for_points Sample.coat 500))
              eq_refl) as (Hu & _ & _).
  rewrite Hu; [reflexivity|discriminate|discriminate].
Defined.

Lemma accepted_item_unavailable db uid id msg txn swap :
  swaps db !! id = Some swap →
  code (response (exec (respond uid id accept msg txn) db)) = 200 →
  ∃ it, items (final (exec (respond uid id accept msg txn) db))
          !! requestedItem swap = Some it ∧ isAvailable it = false.
Proof.
  intros Hs Hok.
  destruct (respond_inv db uid id accept msg txn)
    as [(r & Hrun & Hr)|(u & swap' & item & Hu & Hs' & Hi & Ho & Hp)].
  { rewrite Hrun in Hok. done. }
  assert (swap' = swap) as -> by congruence.
  destruct (swapType swap) eqn:Hty.
  - destruct (respond_accept_direct_run db uid id msg txn u swap item
                Hu Hs Hi Ho Hp Hty) as (l & -> & _).
    cbn [final items set_users set_items set_swaps].
    rewrite unavailable_all_lookup, lookup_alter_eq, Hi.
    case_decide; by eexists.
  - rewrite (respond_accept_points_run db uid id msg txn u swap item
               Hu Hs Hi Ho Hp Hty).
    cbn [final items set_users set_items set_swaps].
    rewrite lookup_alter_eq, Hi. by eexists.
Qed.

(** X16: once a swap has been accepted, its requested item can never be
    requested again: after the acceptance and any further sequence of the
    modelled requests, no [create] naming that item is answered 201. *)
Theorem accepted_item_never_requested db uid id msg txn swap ops uid' b :
  swaps db !! id = Some swap →
  code (response (exec (respond uid id accept msg txn) db)) = 200 →
  body_requestedItem b = requestedItem swap →
  let later := perform_all ops (final (exec (respond uid id accept msg txn) db)) in
  code (response (exec (create uid' b) later)) ≠ 201 ∧
  final (exec (create uid' b) later) = later.
Proof.
  intros Hs Hok Hb later.
  destruct (accepted_item_unavailable db uid id msg txn swap Hs Hok)
    as (it & Hit & Ha).
  destruct (create_inv uid' b later) as [(r & -> & Hr)|(Hvalid & _ & _)]; [done|].
  destruct Hvalid as (u' & item' & _ & Hi' & Ha' & _).
  rewrite Hb in Hi'. subst later.
  apply items_never_relisted in Hi' as (it0 & Hit0 & _ & _ & Hmono).
  assert (it0 = it) as -> by congruence.
  rewrite (Hmono Ha) in Ha'. done.
Qed.

Lemma accepted_item_never_requested_witness :
  code (response (exec (create Sample2.carol (Sample.for_items Sample.coat [Sample.hat]))
                       (perform_all [OpSwap (ReqCancel Sample.alice 0%N None)]
                                    Sample.coat_accepted))) ≠ 201.
Proof.
  destruct (accepted_item_never_requested Sample.coat_requested Sample.bob 0%N
              None "TXN_1"
              (new_Swap Sample.alice (Sample.for_points Sample.coat 500))
              [OpSwap (ReqCancel Sample.alice 0%N None)] Sample2.carol
              (Sample.for_items Sample.coat [Sample.hat])
              eq_refl eq_refl eq_refl) as [H _].
  exact H.
Defined.

(** X17: a points swap accepted right after its creation cannot
    overdraw: [create] has checked that the requester's balance covers
    the price, which is the item's [pointsValue], so when the owner
    accepts the new swap at once the requester is left with
    [balance - pointsValue + 100], which is at least 100. *)
Theorem fresh_request_is_covered db uid b u item msg txn :
  users db !! uid = Some u →
  items db !! body_requestedItem b = Some item →
  is_Some (users db !! owner item) →
  body_swapType b = bypoints →
  code (response (exec (create uid b) db)) = 201 →
  let requested := final (exec (create uid b) db) in
  let run := exec (respond (owner item) (fresh (dom (swaps db))) accept msg txn)
                  requested in
  response run = mkResponse 200 "Swap accepted successfully" ∧
  points_of (final run) uid = Some (points u - pointsValue item + 100) ∧
  100 ≤ points u - pointsValue item + 100.
Proof.
  intros Hu Hi [o Ho] Hty Hok requested run. subst run requested.
  destruct (create_inv uid b db) as [(r & Hrun & Hr)|(Hvalid & _ & Hrun)];
    rewrite Hrun in *; [done|]. cbn [final].
  destruct Hvalid as (u' & item' & Hu' & Hi' & _ & _ & Hne & Hoffer).
  assert (u' = u) as -> by congruence. assert (item' = item) as -> by congruence.
  unfold offer_ok in Hoffer. rewrite Hty in Hoffer.
  destruct Hoffer as (p & Hp & _ & Hle & Hval).
  assert (pointsOffered (new_Swap uid b) = pointsValue item) as Hprice.
  { unfold new_Swap. cbn. rewrite Hty, Hp. cbn. congruence. }
  pose proof (respond_accept_points_run (created uid b db) (owner item)
                (fresh (dom (swaps db))) msg txn o (new_Swap uid b) item) as Hrun2.
  rewrite Hrun2; clear Hrun2; try done.
  - cbn [response final]. split; [done|]. rewrite Hprice.
    assert (points_of (created uid b db) uid = Some (points u)) as Eu
      by (unfold points_of; cbn; by rewrite Hu).
    split; [|lia].
    change (requester (new_Swap uid b)) with uid.
    simpl_points. rewrite Eu. cbn. f_equal; lia.
  - unfold created. cbn. apply lookup_insert_eq.
Qed.

Lemma fresh_request_is_covered_witness :
  points_of (final (exec (respond Sample.bob 0%N accept None "TXN_1")
                         Sample.coat_requested)) Sample.alice = Some 100.
Proof.
  destruct (fresh_request_is_covered Sample.market Sample.alice
              (Sample.for_points Sample.coat 500) (mkUser 500 0 1)
              (mkItem Sample.bob 500 true true false 0 0 []) None "TXN_1"
              eq_refl eq_refl) as (_ & H & _);
    [by eexists|reflexivity|reflexivity|].
  exact H.
Defined.

(** ** A swap whose requested item was removed *)

Lemma respond_item_gone db uid id action msg txn u swap :
  users db !! uid = Some u →
  swaps db !! id = Some swap →
  items db !! requestedItem swap = None →
  exec (respond uid id action msg txn) db =
    mkRun (mkResponse 500 "Error responding to swap") db [].
Proof. intros Hu Hs Hi. unfold_handler. by rewrite Hu, Hs, Hi. Qed.

(** X18: removing an item strands the swaps that request it.  After the
    owner's mark-unavailable has deleted the requested item, a respond to
    such a swap is answered 500 for every authenticated caller, and so
    are a cancel and a complete by anyone but the requester; nothing is
    written.  Only the requester can still cancel the swap. *)
Theorem removal_strands_swap db o id swap :
  swaps db !! id = Some swap →
  code (response (exec (mark_unavailable o (requestedItem swap)) db)) = 200 →
  let after := final (exec (mark_unavailable o (requestedItem swap)) db) in
  (∀ uid action msg txn, is_Some (users db !! uid) →
     exec (respond uid id action msg txn) after
       = mkRun (mkResponse 500 "Error responding to swap") after []) ∧
  (∀ uid reason, is_Some (users db !! uid) → requester swap ≠ uid →
     exec (cancel uid id reason) after
       = mkRun (mkResponse 500 "Error cancelling swap") after []) ∧
  (∀ uid now, is_Some (users db !! uid) → requester swap ≠ uid →
     exec (complete uid id now) after
       = mkRun (mkResponse 500 "Error completing swap") after []) ∧
  (∀ reason, is_Some (users db !! requester swap) →
     status swap = pending ∨ status swap = accepted →
     response (exec (cancel (requester swap) id reason) after)
       = mkResponse 200 "Swap cancelled successfully").
Proof.
  intros Hs Hok after. subst after.
  destruct (mark_unavailable_inv db o (requestedItem swap))
    as [(r & Hrun & Hr)|(u & item & Hu & Hi & Ho & Ha)].
  { rewrite Hrun in Hok. done. }
  rewrite (mark_unavailable_run db o (requestedItem swap) u item Hu Hi Ho Ha).
  cbn [final].
  match goal with |- context [exec _ ?d] => set (after := d) end.
  assert (swaps after !! id = Some swap) as Hs' by done.
  assert (items after !! requestedItem swap = None) as Hi'
    by (subst after; cbn; apply lookup_delete_eq).
  assert (∀ uid, is_Some (users db !! uid) → is_Some (users after !! uid)) as Hu'.
  { intros uid Hsome. subst after. cbn. by apply lookup_alter_is_Some. }
  split; [|split; [|split]].
  - intros uid action msg txn [v Hv]%Hu'.
    by apply (respond_item_gone after uid id action msg txn v swap).
  - intros uid reason [v Hv]%Hu' Hne. unfold_handler. rewrite Hv, Hs'.
    destruct (decide (requester swap = uid)); [done|]. by rewrite Hi'.
  - intros uid now [v Hv]%Hu' Hne. unfold_handler. rewrite Hv, Hs'.
    destruct (decide (requester swap = uid)); [done|]. by rewrite Hi'.
  - intros reason [v Hv]%Hu' Hst.
    rewrite (cancel_run after (requester swap) id v swap Hv Hs'); [| |done].
    + by rewrite Hi'.
    + by left.
Qed.

Lemma removal_strands_swap_witness :
  response (exec (respond Sample.bob 0%N accept None "TXN_1")
                 (final (exec (mark_unavailable Sample.bob Sample.coat)
                              Sample.coat_requested)))
  = mkResponse 500 "Error responding to swap".
Proof.
  destruct (removal_strands_swap Sample.coat_requested Sample.bob 0%N
              (new_Swap Sample.alice (Sample.for_points Sample.coat 500))
              eq_refl eq_refl) as (H & _).
  assert (is_Some (users Sample.coat_requested !! Sample.bob)) as Hb
    by (by eexists).
  exact (f_equal response (H Sample.bob accept None "TXN_1" Hb)).
Defined.

(** ** When [create] succeeds *)

(** X19: [create] answers 201 exactly when the request passes
    preconditions 1 to 4 (requested item found, available and approved;
    not the requester's own; for a direct swap at least one offered item,
    all found, all the requester's, all available and approved; for a
    points swap an amount the requester can afford and that equals the
    item's [pointsValue]) and the requester has no pending swap for the
    item.  In every other case nothing is written. *)
Theorem create_succeeds_iff uid b db :
  (code (response (exec (create uid b) db)) = 201 ↔
   valid_request uid b db ∧
   Swap_findOne_pending uid (body_requestedItem b) db = None) ∧
  (code (response (exec (create uid b) db)) ≠ 201 →
   final (exec (create uid b) db) = db ∧ trace (exec (create uid b) db) = []).
Proof.
  split.
  - split.
    + intros Hok. destruct (create_inv uid b db) as [(r & Hrun & Hr)|(Hv & Hf & _)];
        [|done]. rewrite Hrun in Hok. done.
    + intros [Hv Hf]. by rewrite (create_valid uid b db Hv), Hf.
  - intros Hko. destruct (create_inv uid b db) as [(r & -> & Hr)|(_ & _ & Hrun)];
      [done|]. rewrite Hrun in Hko. done.
Qed.

Lemma create_succeeds_iff_witness :
  valid_request Sample.alice (Sample.for_points Sample.coat 500) Sample.market ∧
  final (exec (create Sample.bob (Sample.for_points Sample.coat 500)) Sample.market)
    = Sample.market.
Proof.
  destruct (create_succeeds_iff Sample.alice (Sample.for_points Sample.coat 500)
              Sample.market) as [[H _] _].
  destruct (create_succeeds_iff Sample.bob (Sample.for_points Sample.coat 500)
              Sample.market) as [_ H2].
  split; [by apply H|]. by apply H2.
Defined.

Lemma Item_find_in_keys ids db :
  ∃ keys, length (Item_find_in ids db) = length keys ∧ NoDup keys ∧
          ∀ k, k ∈ keys → k ∈ ids ∧ is_Some (items db !! k).
Proof.
  exists ((filter (λ kv, kv.1 ∈ ids) (map_to_list (items db))).*1).
  unfold Item_find_in. rewrite !length_fmap.
  split; [by rewrite merge_sort_Permutation|]. split.
  - eapply sublist_NoDup; [apply (NoDup_fst_map_to_list (items db))|].
    apply fmap_sublist, sublist_filter.
  - intros k ([k' it] & -> & Hin)%list_elem_of_fmap.
    apply list_elem_of_filter in Hin as [Hk Hin].
    apply elem_of_map_to_list in Hin. split; [done|by eexists].
Qed.

Lemma Item_find_in_short ids db :
  ¬ NoDup ids ∨ (∃ i, i ∈ ids ∧ items db !! i = None) →
  length (Item_find_in ids db) ≠ length ids.
Proof.
  intros Hbad Hlen.
  destruct (Item_find_in_keys ids db) as (keys & Hk & Hnd & Hin).
  assert (keys ⊆+ ids) as Hsub
    by (apply NoDup_submseteq; [done|]; intros k Hk'; by apply Hin).
  assert (keys ≡ₚ ids) as Hperm
    by (apply submseteq_length_Permutation; [done|lia]).
  destruct Hbad as [Hdup|(i & Hi & Hnone)].
  - apply Hdup. by rewrite <- Hperm.
  - rewrite <- Hperm in Hi. apply Hin in Hi as [_ [it Hit]]. congruence.
Qed.

(** X20: a direct request whose offered list names an item twice, or
    names an item that does not exist, is answered 404 "One or more
    offered items not found" and nothing is written: the lookup returns
    one document per distinct existing id, so its length falls short of
    the list's. *)
Theorem create_offer_not_found db uid b u item offered :
  users db !! uid = Some u →
  items db !! body_requestedItem b = Some item →
  isAvailable item = true →
  isApproved item = true →
  owner item ≠ uid →
  body_swapType b = direct →
  body_offeredItems b = Some offered →
  ¬ NoDup offered ∨ (∃ i, i ∈ offered ∧ items db !! i = None) →
  exec (create uid b) db =
    mkRun (mkResponse 404 "One or more offered items not found") db [].
Proof.
  intros Hu Hi Ha Hp Ho Hty Hoff Hbad. unfold_handler.
  rewrite Hu, Hi, Ha, Hp, Hty, Hoff. cbn.
  destruct (decide (owner item = uid)); [done|].
  destruct offered as [|o offered].
  { destruct Hbad as [Hdup|(i & Hin & _)];
      [destruct Hdup; constructor|by apply elem_of_nil in Hin]. }
  destruct (decide (length (Item_find_in (o :: offered) db) ≠ length (o :: offered)))
    as [|Heq]; [done|].
  destruct Heq. by apply Item_find_in_short.
Qed.

Lemma create_offer_not_found_witness :
  exec (create Sample.alice (Sample.for_items Sample.coat [Sample.scarf; Sample.scarf]))
       Sample.market
  = mkRun (mkResponse 404 "One or more offered items not found") Sample.market [].
Proof.
  apply (create_offer_not_found Sample.market Sample.alice _ (mkUser 500 0 1)
           (mkItem Sample.bob 500 true true false 0 0 [])
           [Sample.scarf; Sample.scarf]); try reflexivity; [discriminate|].
  left. intros Hnd. apply NoDup_cons in Hnd as [Hnot _].
  apply Hnot. left.
Defined.

(** ** Moderation *)

(** X21: an administrator's decision sets the two moderation flags
    together: after a successful approve the item is approved and not
    rejected, after a successful reject it is rejected and not approved,
    and nothing else about the item, no other item, no user and no swap
    changes.  Approving an approved item and rejecting a rejected one are
    answered 400 and write nothing. *)
Theorem moderation_decision db uid id reason u item :
  users db !! uid = Some u →
  items db !! id = Some item →
  let approved := exec (approve uid admin_role id) db in
  let rejected := exec (reject_item uid admin_role id reason) db in
  (if isApproved item
   then approved = mkRun (mkResponse 400 "Item is already approved") db []
   else response approved = mkResponse 200 "Item approved successfully" ∧
        final approved =
          set_items (insert id (mkItem (owner item) (pointsValue item)
                                  (isAvailable item) true false
                                  (views item) (likes item) (likedBy item))) db) ∧
  (if isRejected item
   then rejected = mkRun (mkResponse 400 "Item is already rejected") db []
   else response rejected = mkResponse 200 "Item rejected successfully" ∧
        final rejected =
          set_items (insert id (mkItem (owner item) (pointsValue item)
                                  (isAvailable item) false true
                                  (views item) (likes item) (likedBy item))) db).
Proof.
  intros Hu Hi approved rejected. subst approved rejected.
  split; unfold_more; rewrite Hu;
    (destruct (decide (admin_role ≠ admin_role)); [done|]); rewrite Hi.
  - by destruct (isApproved item).
  - by destruct (isRejected item).
Qed.

Lemma moderation_decision_witness :
  exec (approve Sample2.carol admin_role Sample.coat) Sample2.market
    = mkRun (mkResponse 400 "Item is already approved") Sample2.market [] ∧
  (isApproved <$> items (final (exec (reject_item Sample2.carol admin_role Sample.coat
                                        "counterfeit") Sample2.market)) !! Sample.coat)
    = Some false.
Proof.
  destruct (moderation_decision Sample2.market Sample2.carol Sample.coat
              "counterfeit" (mkUser 40 0 0)
              (mkItem Sample.bob 500 true true false 0 0 [])
              eq_refl eq_refl) as [Ha [_ Hr]].
  split; [exact Ha|]. by rewrite Hr.
Defined.

(** The moderation routes and the points update are for
    administrators only: for a caller whose role is not admin they answer
    403 "Admin access required" and write nothing. *)
Theorem admin_only db uid id reason p u :
  users db !! uid = Some u →
  exec (approve uid user_role id) db
    = mkRun (mkResponse 403 "Admin access required") db [] ∧
  exec (reject_item uid user_role id reason) db
    = mkRun (mkResponse 403 "Admin access required") db [] ∧
  exec (update_points uid user_role id p) db
    = mkRun (mkResponse 403 "Admin access required") db [].
Proof.
  intros Hu. unfold_more. rewrite Hu.
  destruct (decide (user_role ≠ admin_role)) as [|Hn]; [by repeat split|by destruct Hn].
Qed.

Lemma admin_only_witness :
  exec (update_points Sample.alice user_role Sample.alice 1000000) Sample.market
    = mkRun (mkResponse 403 "Admin access required") Sample.market [].
Proof.
  destruct (admin_only Sample.market Sample.alice Sample.coat "" 1000000
              (mkUser 500 0 1) eq_refl) as (_ & _ & H).
  exact H.
Defined.

(** X22: moderation gates the requests.  Once an administrator has
    rejected an item, every [create] that names it is answered 400 "Item
    is not available for swap" and writes nothing; if the item was
    approved and not rejected before, approving it again gives back
    exactly the item document there was. *)
Theorem rejected_item_not_requestable db uid id reason item :
  items db !! id = Some item →
  code (response (exec (reject_item uid admin_role id reason) db)) = 200 →
  let after := final (exec (reject_item uid admin_role id reason) db) in
  (∀ uid' b, body_requestedItem b = id → is_Some (users db !! uid') →
     exec (create uid' b) after
       = mkRun (mkResponse 400 "Item is not available for swap") after []) ∧
  (isApproved item = true →
   response (exec (approve uid admin_role id) after)
     = mkResponse 200 "Item approved successfully" ∧
   final (exec (approve uid admin_role id) after) = db).
Proof.
  intros Hi Hok after. subst after.
  destruct (reject_item_inv db uid admin_role id reason)
    as [(r & Hrun & Hr)|(u & item' & Hu & _ & Hi' & Hrej & Hrun)].
  { rewrite Hrun in Hok. done. }
  assert (item' = item) as -> by congruence. rewrite Hrun. cbn [final].
  split.
  - intros uid' b Hb [u' Hu']. unfold_handler. cbn [users set_items].
    rewrite Hu', Hb. cbn [items set_items]. rewrite lookup_insert_eq.
    cbn. by destruct (isAvailable item).
  - intros Happ. unfold_more. cbn [users set_items].
    rewrite Hu. destruct (decide (admin_role ≠ admin_role)); [done|].
    cbn [items set_items]. rewrite lookup_insert_eq. cbn. split; [done|].
    unfold set_items. cbn [users items swaps]. rewrite insert_insert_eq.
    destruct db as [us its sw]. cbn in *. f_equal.
    apply insert_id. rewrite Hi. f_equal.
    destruct item. cbn in *. by subst.
Qed.

Lemma rejected_item_not_requestable_witness :
  exec (create Sample.alice (Sample.for_points Sample.coat 500))
       (final (exec (reject_item Sample2.carol admin_role Sample.coat "counterfeit")
                    Sample2.market))
  = mkRun (mkResponse 400 "Item is not available for swap")
          (final (exec (reject_item Sample2.carol admin_role Sample.coat "counterfeit")
                       Sample2.market)) [].
Proof.
  destruct (rejected_item_not_requestable Sample2.market Sample2.carol Sample.coat
              "counterfeit" (mkItem Sample.bob 500 true true false 0 0 [])
              eq_refl eq_refl) as [H _].
  apply H; [reflexivity|by eexists].
Defined.

(** ** The admin points update *)

(** X23: the admin points update cannot install a negative balance: a
    negative amount is answered 400 and writes nothing; otherwise the
    target's balance becomes exactly the amount, its other counters and
    every other user, item and swap stay as they are, and a missing
    target is answered 404 with nothing changed. *)
Theorem update_points_effect db uid id p u :
  users db !! uid = Some u →
  let run := exec (update_points uid admin_role id p) db in
  (p < 0 → run = mkRun (mkResponse 400 "Validation failed") db []) ∧
  (0 ≤ p →
   items (final run) = items db ∧ swaps (final run) = swaps db ∧
   (∀ v, v ≠ id → users (final run) !! v = users db !! v) ∧
   match users db !! id with
   | Some t =>
       response run = mkResponse 200 "User points updated successfully" ∧
       users (final run) !! id = Some (mkUser p (swapsCount t) (itemsCount t))
   | None =>
       response run = mkResponse 404 "User not found" ∧
       users (final run) !! id = None
   end).
Proof.
  intros Hu run. subst run. unfold_more. rewrite Hu.
  destruct (decide (admin_role ≠ admin_role)); [done|].
  destruct (decide (p < 0)); [split; [done|lia]|].
  split; [lia|]. intros _.
  assert (∀ v, v ≠ id →
            alter (set_points p) id (users db) !! v = users db !! v) as Hframe
    by (intros v Hne; by rewrite lookup_alter_ne).
  destruct (users db !! id) as [t|] eqn:Ht;
    cbn [response final users items swaps set_users];
    (split; [done|]); (split; [done|]); (split; [exact Hframe|]);
    (split; [done|]); by rewrite lookup_alter_eq, Ht.
Qed.

Lemma update_points_effect_witness :
  points_of (final (exec (update_points Sample2.carol admin_role Sample.alice 0)
                         Sample2.market)) Sample.alice = Some 0 ∧
  exec (update_points Sample2.carol admin_role Sample.alice (-5)) Sample2.market
    = mkRun (mkResponse 400 "Validation failed") Sample2.market [].
Proof.
  destruct (update_points_effect Sample2.market Sample2.carol Sample.alice 0
              (mkUser 40 0 0) eq_refl) as [_ H0].
  destruct (update_points_effect Sample2.market Sample2.carol Sample.alice (-5)
              (mkUser 40 0 0) eq_refl) as [Hneg _].
  split; [|by apply Hneg].
  destruct H0 as (_ & _ & _ & _ & H); [done|].
  unfold points_of. by rewrite H.
Defined.

(** ** The duration of a swap *)

(** X24: the [duration] virtual is [null] unless the swap has both
    stamps, and then it is the number of whole days between them: [d]
    with [d] days at most and less than [d + 1] days elapsed, so 0 for a
    swap completed within 24 hours of its creation. *)
Theorem duration_whole_days (completed_at created_at : option Z) :
  match completed_at, created_at with
  | Some c, Some s =>
      ∃ d, duration completed_at created_at = Some d ∧
           d * 86400000 ≤ c - s < (d + 1) * 86400000 ∧
           (0 ≤ c - s < 86400000 → d = 0)
  | _, _ => duration completed_at created_at = None
  end.
Proof.
  destruct completed_at as [c|], created_at as [s|]; try done.
  exists ((c - s) / 86400000). split; [done|].
  pose proof (Z.div_mod (c - s) 86400000) as Hdm.
  pose proof (Z.mod_pos_bound (c - s) 86400000) as Hmod.
  split; [lia|]. intros Hday. by apply Z.div_small.
Qed.

(** ** Updating an item *)

Lemma update_item_run db uid id b u item :
  users db !! uid = Some u →
  items db !! id = Some item →
  owner item = uid →
  pointsValue_valid (body_fields b) = true →
  pointsValue_valid (castUpdate (delete_owner b)) = true →
  let d := set_items (alter (apply_patch (castUpdate (delete_owner b))) id) db in
  exec (update_item uid id b) db =
    mkRun (mkResponse 200 "Item updated successfully") d [d].
Proof.
  intros Hu Hi Ho Hv Hv'.
  unfold exec, update_item, requireOwnership, authenticateToken,
    mbind, Handler_bind, mret, Handler_ret, query, reply, write.
  rewrite Hu, Hi. destruct (decide (owner item ≠ uid)); [done|].
  by rewrite Hv, Hv'.
Qed.

Lemma castUpdate_pointsValue b :
  patch_pointsValue (castUpdate (delete_owner b)) =
  first_of (patch_pointsValue (body_fields b)) (body_set b ≫= patch_pointsValue).
Proof.
  unfold castUpdate, delete_owner. cbn.
  destruct (body_set b); cbn; [done|].
  by destruct (patch_pointsValue (body_fields b)).
Qed.

(** X25: what the item update lets the owner of an item change.  A body
    made of fields and of a [$set] sets every field it names at the top
    level or inside the [$set] (the top-level value when it names one
    twice), [isAvailable], [isApproved], [isRejected], [likes] and [views]
    included, and keeps the others; every other item, the users and the
    swaps are untouched.  The guard [delete updateData.owner] covers the
    top-level key only: a body without [$set] keeps the owner whatever
    owner it names, and a body with [$set: { owner: x }] makes [x] the
    owner.  A [pointsValue] outside 1..10000 is answered 400 at the top
    level and 500 inside the [$set], and anybody but the owner is
    answered 403; none of these writes. *)
Theorem update_item_effect db uid id b u item :
  users db !! uid = Some u →
  items db !! id = Some item →
  let run := exec (update_item uid id b) db in
  let sent {A} (f : ItemPatch → option A) (old : A) : A :=
    default (default old (body_set b ≫= f)) (f (body_fields b)) in
  (owner item ≠ uid →
   run = mkRun (mkResponse 403 "Access denied - you do not own this resource") db []) ∧
  (owner item = uid → pointsValue_valid (body_fields b) = false →
   run = mkRun (mkResponse 400 "Validation failed") db []) ∧
  (owner item = uid → patch_pointsValue (body_fields b) = None →
   (∃ s, body_set b = Some s ∧ pointsValue_valid s = false) →
   run = mkRun (mkResponse 500 "Error updating item") db []) ∧
  (owner item = uid →
   pointsValue_valid (body_fields b) = true →
   (∀ s, body_set b = Some s → patch_pointsValue (body_fields b) = None →
         pointsValue_valid s = true) →
   response run = mkResponse 200 "Item updated successfully" ∧
   trace run = [final run] ∧
   items (final run) !! id =
     Some (mkItem (default (owner item) (body_set b ≫= patch_owner))
             (sent patch_pointsValue (pointsValue item))
             (sent patch_isAvailable (isAvailable item))
             (sent patch_isApproved (isApproved item))
             (sent patch_isRejected (isRejected item))
             (sent patch_views (views item))
             (sent patch_likes (likes item))
             (sent patch_likedBy (likedBy item))) ∧
   (body_set b = None → owner <$> items (final run) !! id = Some uid) ∧
   (∀ s x, body_set b = Some s → patch_owner s = Some x →
           owner <$> items (final run) !! id = Some x) ∧
   (∀ i, i ≠ id → items (final run) !! i = items db !! i) ∧
   users (final run) = users db ∧ swaps (final run) = swaps db).
Proof.
  intros Hu Hi run sent. subst run sent.
  split; [|split; [|split]].
  - intros Hne.
    unfold exec, update_item, requireOwnership, authenticateToken,
      mbind, Handler_bind, mret, Handler_ret, query, reply, write.
    rewrite Hu, Hi. by destruct (decide (owner item ≠ uid)).
  - intros Ho Hv.
    unfold exec, update_item, requireOwnership, authenticateToken,
      mbind, Handler_bind, mret, Handler_ret, query, reply, write.
    rewrite Hu, Hi. destruct (decide (owner item ≠ uid)); [done|].
    by rewrite Hv.
  - intros Ho Hnone (s & Hset & Hv).
    assert (pointsValue_valid (body_fields b) = true) as Htop
      by (unfold pointsValue_valid; by rewrite Hnone).
    assert (pointsValue_valid (castUpdate (delete_owner b)) = false) as Hall.
    { unfold pointsValue_valid in *.
      rewrite castUpdate_pointsValue, Hnone, Hset. exact Hv. }
    unfold exec, update_item, requireOwnership, authenticateToken,
      mbind, Handler_bind, mret, Handler_ret, query, reply, write.
    rewrite Hu, Hi. destruct (decide (owner item ≠ uid)); [done|].
    by rewrite Htop, Hall.
  - intros Ho Hv Hset.
    assert (pointsValue_valid (castUpdate (delete_owner b)) = true) as Hall.
    { unfold pointsValue_valid in *. rewrite castUpdate_pointsValue.
      destruct (patch_pointsValue (body_fields b)) as [v|] eqn:Htop; [done|].
      destruct (body_set b) as [s|] eqn:Hs; [|done].
      by apply (Hset s). }
    rewrite (update_item_run db uid id b u item Hu Hi Ho Hv Hall).
    cbn [response final trace users items swaps set_items].
    assert (alter (apply_patch (castUpdate (delete_owner b))) id (items db) !! id
            = Some (apply_patch (castUpdate (delete_owner b)) item)) as Hit
      by (by rewrite lookup_alter_eq, Hi).
    rewrite Hit. unfold apply_patch, castUpdate, delete_owner. cbn.
    repeat split.
    + destruct (body_set b) as [s|]; cbn; [|done].
      by destruct (patch_pointsValue (body_fields b)),
                  (patch_isAvailable (body_fields b)),
                  (patch_isApproved (body_fields b)),
                  (patch_isRejected (body_fields b)),
                  (patch_views (body_fields b)),
                  (patch_likes (body_fields b)),
                  (patch_likedBy (body_fields b)).
    + intros ->. cbn. by rewrite Ho.
    + intros s x -> Hx. cbn. by rewrite Hx.
    + intros i Hne. by rewrite lookup_alter_ne.
Qed.

Lemma update_item_effect_witness :
  (owner <$> items (final (exec (update_item Sample.bob Sample.coat
                                   (mkUpdateBody
                                      (mkItemPatch (Some Sample.alice) (Some 1) None None
                                                   None None (Some 999) None)
                                      None))
                                Sample.market)) !! Sample.coat) = Some Sample.bob ∧
  (owner <$> items (final (exec (update_item Sample.bob Sample.coat
                                   (mkUpdateBody
                                      (mkItemPatch None None None None None None None None)
                                      (Some (mkItemPatch (Some Sample.alice) None None None
                                                         None None None None))))
                                Sample.market)) !! Sample.coat) = Some Sample.alice.
Proof.
  split.
  - destruct (update_item_effect Sample.market Sample.bob Sample.coat
                (mkUpdateBody
                   (mkItemPatch (Some Sample.alice) (Some 1) None None None None
                                (Some 999) None)
                   None)
                (mkUser 100 0 3) (mkItem Sample.bob 500 true true false 0 0 [])
                eq_refl eq_refl) as (_ & _ & _ & H).
    destruct (H eq_refl eq_refl) as (_ & _ & _ & Hkept & _); [by intros s Hs|].
    by apply Hkept.
  - destruct (update_item_effect Sample.market Sample.bob Sample.coat
                (mkUpdateBody
                   (mkItemPatch None None None None None None None None)
                   (Some (mkItemPatch (Some Sample.alice) None None None
                                      None None None None)))
                (mkUser 100 0 3) (mkItem Sample.bob 500 true true false 0 0 [])
                eq_refl eq_refl) as (_ & _ & _ & H).
    destruct (H eq_refl eq_refl) as (_ & _ & _ & _ & Hset & _); [by intros s [= <-]|].
    by apply (Hset _ Sample.alice eq_refl).
Defined.

(** X26: the owner can undo a moderation decision and a reservation.
    After an administrator has rejected an item, an update by the owner
    whose body carries [isApproved: true] and [isRejected: false] is
    accepted and the item is approved and not rejected again; likewise a
    body with [isAvailable: true] puts an unavailable item back into the
    pool. *)
Theorem owner_overrides_moderation db admin id reason o u item :
  items db !! id = Some item →
  owner item = o →
  users db !! o = Some u →
  code (response (exec (reject_item admin admin_role id reason) db)) = 200 →
  let rejected := final (exec (reject_item admin admin_role id reason) db) in
  let run := exec (update_item o id
                     (mkUpdateBody
                        (mkItemPatch None None (Some true) (Some true) (Some false)
                                     None None None)
                        None)) rejected in
  (isApproved <$> items rejected !! id) = Some false ∧
  response run = mkResponse 200 "Item updated successfully" ∧
  items (final run) !! id =
    Some (mkItem (owner item) (pointsValue item) true true false
            (views item) (likes item) (likedBy item)).
Proof.
  intros Hi Ho Hu Hok rejected run. subst run rejected.
  destruct (reject_item_inv db admin admin_role id reason)
    as [(r & Hrun & Hr)|(a & item' & Ha & _ & Hi' & Hrej & Hrun)].
  { rewrite Hrun in Hok. done. }
  assert (item' = item) as -> by congruence. rewrite Hrun. cbn [final].
  assert (items (set_items (insert id (set_moderation false true item)) db) !! id
          = Some (set_moderation false true item)) as Hi2
    by (cbn; apply lookup_insert_eq).
  split; [by rewrite Hi2|].
  rewrite (update_item_run (set_items (insert id (set_moderation false true item)) db)
             o id (mkUpdateBody
                     (mkItemPatch None None (Some true) (Some true) (Some false)
                                  None None None)
                     None)
             u (set_moderation false true item) Hu Hi2 Ho eq_refl eq_refl).
  cbn [response final]. split; [done|].
  cbn [items set_items]. by rewrite lookup_alter_eq, lookup_insert_eq.
Qed.

Lemma owner_overrides_moderation_witness :
  (isApproved <$>
     items (final (exec (update_item Sample.bob Sample.coat
                           (mkUpdateBody
                              (mkItemPatch None None (Some true) (Some true) (Some false)
                                           None None None)
                              None))
                        (final (exec (reject_item Sample2.carol admin_role Sample.coat
                                        "counterfeit") Sample2.market))))
       !! Sample.coat) = Some true.
Proof.
  destruct (owner_overrides_moderation Sample2.market Sample2.carol Sample.coat
              "counterfeit" Sample.bob (mkUser 100 0 3)
              (mkItem Sample.bob 500 true true false 0 0 [])
              eq_refl eq_refl eq_refl eq_refl) as (_ & _ & H).
  by rewrite H.
Defined.

(** ** Views *)

Lemma view_times_S n id db :
  view_times (S n) id db = final (exec (get_item id) (view_times n id db)).
Proof. done. Qed.

(** X27: each request for the page of an existing item raises its
    [views] by exactly one and changes nothing else: after [n] requests
    the counter is [n] higher, every other field of the item, every other
    item, the users and the swaps are as before.  For an item that does
    not exist nothing is written. *)
Theorem views_count_requests n id db :
  users (view_times n id db) = users db ∧
  swaps (view_times n id db) = swaps db ∧
  (∀ i, i ≠ id → items (view_times n id db) !! i = items db !! i) ∧
  items (view_times n id db) !! id =
    (λ it, mkItem (owner it) (pointsValue it) (isAvailable it) (isApproved it)
             (isRejected it) (views it + Z.of_nat n) (likes it) (likedBy it))
    <$> items db !! id.
Proof.
  induction n as [|n (IHu & IHs & IHo & IHi)].
  - cbn. repeat split. destruct (items db !! id) as [it|]; cbn; [|done].
    destruct it. cbn. do 2 f_equal. lia.
  - rewrite view_times_S, get_item_run, IHi.
    destruct (items db !! id) as [it|]; cbn [fmap option_fmap option_map final].
    + cbn [users items swaps set_items]. repeat split; try done.
      * intros i Hne. rewrite lookup_insert_ne by done. by apply IHo.
      * rewrite lookup_insert_eq. unfold incrementViews. cbn.
        do 2 f_equal. lia.
    + by repeat split.
Qed.
